(** * simple_sqs_client: a shallow embedding of [client.py] and [builder.py]

    The Python code is embedded as functions in a state-and-exception
    monad over an explicit [world]: the object heap, the class attribute
    [SQSClient._instances], the supply of transport handles handed out by
    [boto3.client], the chronological trace of every call that leaves
    the process (transport requests, log records, prints), and the
    environment that decides which arguments [boto3.client] refuses. *)

From Stdlib Require Import ZArith Lia.
From stdpp Require Import base option list strings pretty gmap.

Open Scope Z_scope.

(** ** Python values and exceptions *)

(** The connection parameters are annotated [str]; the builder starts
    them at [None]. *)
Inductive pyval : Type :=
| PyNone
| PyStr (s : string).

#[global] Instance pyval_eq_dec : EqDecision pyval.
Proof. solve_decision. Defined.

(** Python truthiness: [None] and the empty string are falsy. *)
Definition truthy (v : pyval) : bool :=
  match v with
  | PyNone => false
  | PyStr s => negb (bool_decide (s = ""))
  end.

(** The exception classes the code names, and one, [ClientError], for
    every other failure the transport or [boto3.client] can raise
    (authorization, malformed request, partial credentials, ...). All of
    them derive from [Exception]. *)
Inductive exn : Type :=
| WaiterError (msg : string)
| HTTPClientError (error : string)
| ValueError (msg : string)
| AttributeError (msg : string)
| KeyError (key : string)
| ClientError (msg : string).

#[global] Instance exn_eq_dec : EqDecision exn.
Proof. solve_decision. Defined.

(** [repr] of a Python string. A character of a Rocq string stands for
    the code point of the same number. The string is put between single
    quotes, or between double quotes when it holds a single quote and no
    double quote; the quote used and the backslash are escaped, and so are
    the characters Python does not count as printable. *)
Definition double_quote : Ascii.ascii := Ascii.ascii_of_nat 34.
Definition single_quote : Ascii.ascii := Ascii.ascii_of_nat 39.
Definition backslash : Ascii.ascii := Ascii.ascii_of_nat 92.

Definition hex_digit (n : nat) : Ascii.ascii :=
  Ascii.ascii_of_nat (if (n <? 10)%nat then 48 + n else 87 + n).

Fixpoint contains (c : Ascii.ascii) (s : string) : bool :=
  match s with
  | EmptyString => false
  | String c' s' => Ascii.eqb c c' || contains c s'
  end.

Definition repr_char (quote c : Ascii.ascii) : string :=
  let n := Ascii.nat_of_ascii c in
  if Ascii.eqb c quote || Ascii.eqb c backslash then
    String backslash (String c EmptyString)
  else if (n =? 9)%nat then String backslash "t"
  else if (n =? 10)%nat then String backslash "n"
  else if (n =? 13)%nat then String backslash "r"
  else if (n <? 32)%nat || (n =? 127)%nat
          || ((128 <=? n)%nat && (n <=? 160)%nat) || (n =? 173)%nat then
    String backslash
      (String (Ascii.ascii_of_nat 120) (String (hex_digit (n / 16))
                          (String (hex_digit (n mod 16)) EmptyString)))
  else String c EmptyString.

Fixpoint repr_chars (quote : Ascii.ascii) (s : string) : string :=
  match s with
  | EmptyString => EmptyString
  | String c s' => repr_char quote c +:+ repr_chars quote s'
  end.

Definition py_repr (s : string) : string :=
  let quote :=
    if contains single_quote s && negb (contains double_quote s)
    then double_quote else single_quote in
  String quote (repr_chars quote s +:+ String quote EmptyString).

(** [str(e)]. A [KeyError] shows the [repr] of its key; an
    [HTTPClientError] shows its message template filled with [error]; the
    other classes show their message. *)
Definition str_exn (e : exn) : string :=
  match e with
  | WaiterError msg => msg
  | HTTPClientError error =>
      "An HTTP Client raised an unhandled exception: " +:+ error
  | ValueError msg => msg
  | AttributeError msg => msg
  | KeyError key => py_repr key
  | ClientError msg => msg
  end.

(** What [except WaiterError] catches. *)
Definition is_WaiterError (e : exn) : bool :=
  match e with
  | WaiterError _ => true
  | _ => false
  end.

(** ** Transport data *)

(** A transport handle: the n-th client object made by [boto3.client]. *)
Definition handle : Type := nat.

(** A message is a dict; the client only ever reads its ['ReceiptHandle']
    key and otherwise passes it through. *)
Abbreviation Message := (gmap string string).

(** The response dict of [receive_message]; ['Messages'] is the only key
    read, and it is absent when the poll window saw no message. *)
Record response : Type := Response { Messages : option (list Message) }.

(** [response.get('Messages', [])] *)
Definition get_Messages (r : response) : list Message :=
  default [] (Messages r).

(** Everything that leaves the process, in the order it happens. *)
Inductive event : Type :=
| Boto3Client (h : handle) (region key secret : pyval)
| ReceiveMessage (h : handle) (QueueUrl : pyval)
    (MaxNumberOfMessages VisibilityTimeout WaitTimeSeconds : Z)
| SendMessage (h : handle) (QueueUrl : pyval) (MessageBody : string)
| DeleteMessage (h : handle) (QueueUrl : pyval) (ReceiptHandle : string)
| PurgeQueue (h : handle) (QueueUrl : pyval)
| Close (h : handle)
| LogDebug (msg : string)
| LogError (msg : string)
| Print (msg : string).

Definition is_poll (ev : event) : bool :=
  match ev with
  | ReceiveMessage _ _ _ _ _ => true
  | _ => false
  end.

Definition is_connect (ev : event) : bool :=
  match ev with
  | Boto3Client _ _ _ _ => true
  | _ => false
  end.

(** Number of transport polls, and of handle (re)builds, in a trace. *)
Definition polls_in (evs : list event) : nat := length (filter is_poll evs).
Definition connects_in (evs : list event) : nat :=
  length (filter is_connect evs).

(** ** Objects and the world *)

(** The attributes of one [SQSClient] object. An attribute is [None] until
    it is first assigned. *)
Record SQSClient : Type := Obj {
  region_name : option pyval;
  aws_access_key_id : option pyval;
  aws_secret_access_key : option pyval;
  queue_url : option pyval;
  sqs : option handle
}.

(** What [super().__new__(cls)] returns: an object with no attributes. *)
Definition bare : SQSClient := Obj None None None None None.

(** The environment the process runs in, as far as [boto3.client] goes:
    for each region and pair of credentials, the exception [boto3.client]
    raises for them (no region configured, partial credentials, a region
    name it does not accept, ...), or [None] when it builds a client. *)
Definition boto3_env : Type := pyval -> pyval -> pyval -> option exn.

Record world : Type := World {
  heap : list SQSClient;      (* an object's identity is its index *)
  _instances : list nat;      (* the class attribute SQSClient._instances *)
  next_handle : handle;       (* supply of boto3 client objects *)
  trace : list event;
  boto3_rejects : boto3_env   (* fixed for the life of the process *)
}.

(** The state of a freshly started process in the environment [env]. *)
Definition start (env : boto3_env) : world := World [] [] 0%nat [] env.

(** A sample environment: no default region is configured, and one
    credential without the other is refused. *)
Definition sample_env : boto3_env :=
  fun region key secret =>
    match region, key, secret with
    | PyNone, _, _ => Some (ClientError "You must specify a region.")
    | _, PyStr _, PyNone =>
        Some (ClientError
          "Partial credentials found in explicit, missing: aws_secret_access_key")
    | _, PyNone, PyStr _ =>
        Some (ClientError
          "Partial credentials found in explicit, missing: aws_access_key_id")
    | _, _, _ => None
    end.

(** A freshly started process in the sample environment. *)
Definition init_world : world := start sample_env.

(** ** The monad: state, exceptions, and running out of fuel *)

Inductive outcome (A : Type) : Type :=
| Return (a : A)
| Raise (e : exn)
| OutOfFuel.
Arguments Return {A} a.
Arguments Raise {A} e.
Arguments OutOfFuel {A}.

Definition M (A : Type) : Type := world -> outcome A * world.

Definition ret {A} (a : A) : M A := fun w => (Return a, w).
Definition raise {A} (e : exn) : M A := fun w => (Raise e, w).
Definition out_of_fuel {A} : M A := fun w => (OutOfFuel, w).

Definition bind {A B} (m : M A) (f : A -> M B) : M B :=
  fun w =>
    match m w with
    | (Return a, w') => f a w'
    | (Raise e, w') => (Raise e, w')
    | (OutOfFuel, w') => (OutOfFuel, w')
    end.

Notation "x <- m ;; k" := (bind m (fun x => k))
  (at level 100, m at next level, right associativity).
Notation "m ;; k" := (bind m (fun _ => k))
  (at level 100, right associativity).

(** [try: m except ...: h]. The handler says which exceptions it catches;
    what it raises itself is not caught again. *)
Definition try_except {A} (m : M A) (h : exn -> option (M A)) : M A :=
  fun w =>
    match m w with
    | (Raise e, w') =>
        match h e with
        | Some k => k w'
        | None => (Raise e, w')
        end
    | r => r
    end.

Definition emit (ev : event) : M unit :=
  fun w => (Return tt,
            World (heap w) (_instances w) (next_handle w) (trace w ++ [ev])
                  (boto3_rejects w)).

(** Reading an attribute of the object [self]; an attribute never assigned
    raises [AttributeError]. *)
Definition getattr {A} (self : nat) (name : string)
    (proj : SQSClient -> option A) : M A :=
  fun w =>
    match heap w !! self ≫= proj with
    | Some v => (Return v, w)
    | None =>
        (Raise (AttributeError
                  ("'SQSClient' object has no attribute '" +:+ name +:+ "'")), w)
    end.

(** Assigning attributes of the object [self]. *)
Definition update (self : nat) (f : SQSClient -> SQSClient) : M unit :=
  fun w =>
    (Return tt,
     World (alter f self (heap w)) (_instances w) (next_handle w) (trace w)
           (boto3_rejects w)).

(** ** The transport, as the client sees it *)

(** [boto3.client('sqs', ...)] belongs to the boto3 library. It checks
    its arguments against the environment and raises when it refuses them;
    otherwise it builds a client object without contacting the service:
    a handle that was never handed out before. *)
Definition boto3_client (region key secret : pyval) : M handle :=
  fun w =>
    match boto3_rejects w region key secret with
    | Some e => (Raise e, w)
    | None =>
        let h := next_handle w in
        (Return h,
         World (heap w) (_instances w) (S h)
               (trace w ++ [Boto3Client h region key secret])
               (boto3_rejects w))
    end.

(** What a transport request can do: raise, or answer. *)
Definition reply (A : Type) : Type := exn + A.

Definition of_reply {A} (r : reply A) : M A :=
  match r with
  | inl e => raise e
  | inr a => ret a
  end.

(** The behaviour of the queue service during one client operation. The
    outcome of a poll is indexed by the number of polls the process issued
    before it. *)
Record transport : Type := Transport {
  on_receive : nat -> reply response;
  on_send : reply (gmap string string);
  on_delete : reply unit;
  on_purge : reply unit
}.

Definition receive_message (t : transport) (h : handle) (QueueUrl : pyval)
    (MaxNumberOfMessages VisibilityTimeout WaitTimeSeconds : Z) : M response :=
  fun w =>
    (emit (ReceiveMessage h QueueUrl MaxNumberOfMessages
                          VisibilityTimeout WaitTimeSeconds) ;;
     of_reply (on_receive t (polls_in (trace w)))) w.

Definition send_message_request (t : transport) (h : handle) (QueueUrl : pyval)
    (MessageBody : string) : M (gmap string string) :=
  emit (SendMessage h QueueUrl MessageBody) ;; of_reply (on_send t).

Definition delete_message (t : transport) (h : handle) (QueueUrl : pyval)
    (ReceiptHandle : string) : M unit :=
  emit (DeleteMessage h QueueUrl ReceiptHandle) ;; of_reply (on_delete t).

Definition purge_queue (t : transport) (h : handle) (QueueUrl : pyval)
    : M unit :=
  emit (PurgeQueue h QueueUrl) ;; of_reply (on_purge t).

(** [d[key]] on a dict *)
Definition getitem (d : gmap string string) (key : string) : M string :=
  match d !! key with
  | Some v => ret v
  | None => raise (KeyError key)
  end.

(** ** client.py *)

(** [SQSClient._get_existing_instance]: the scan of [cls._instances]. The
    four comparisons are chained with [and], so an attribute is read only
    when the comparisons before it held. *)
Fixpoint scan_instances (instances : list nat)
    (region key secret url : pyval) : M (option nat) :=
  match instances with
  | [] => ret None
  | instance :: rest =>
      r <- getattr instance "region_name" region_name ;;
      if negb (bool_decide (r = region)) then
        scan_instances rest region key secret url
      else
      k <- getattr instance "aws_access_key_id" aws_access_key_id ;;
      if negb (bool_decide (k = key)) then
        scan_instances rest region key secret url
      else
      s <- getattr instance "aws_secret_access_key" aws_secret_access_key ;;
      if negb (bool_decide (s = secret)) then
        scan_instances rest region key secret url
      else
      q <- getattr instance "queue_url" queue_url ;;
      if negb (bool_decide (q = url)) then
        scan_instances rest region key secret url
      else ret (Some instance)
  end.

Definition _get_existing_instance (region key secret url : pyval)
    : M (option nat) :=
  fun w => scan_instances (_instances w) region key secret url w.

(** [super().__new__(cls)]: a new object, with no attributes yet. *)
Definition object_new : M nat :=
  fun w =>
    (Return (length (heap w)),
     World (heap w ++ [bare]) (_instances w) (next_handle w) (trace w)
           (boto3_rejects w)).

(** [cls._instances.append(new_instance)] *)
Definition instances_append (new_instance : nat) : M unit :=
  fun w =>
    (Return tt,
     World (heap w) (_instances w ++ [new_instance]) (next_handle w)
           (trace w) (boto3_rejects w)).

(** [SQSClient.__new__]. An instance has neither [__bool__] nor [__len__],
    so [if existing_instance] tests it against [None]. *)
Definition __new__ (region key secret url : pyval) : M nat :=
  existing_instance <- _get_existing_instance region key secret url ;;
  match existing_instance with
  | Some instance => ret instance
  | None =>
      new_instance <- object_new ;;
      instances_append new_instance ;;
      ret new_instance
  end.

(** [SQSClient._init_client] *)
Definition _init_client (self : nat) : M unit :=
  region <- getattr self "region_name" region_name ;;
  key <- getattr self "aws_access_key_id" aws_access_key_id ;;
  secret <- getattr self "aws_secret_access_key" aws_secret_access_key ;;
  h <- boto3_client region key secret ;;
  update self (fun o =>
    Obj (region_name o) (aws_access_key_id o) (aws_secret_access_key o)
        (queue_url o) (Some h)).

(** [SQSClient.__init__]. Obtaining the logger has no effect on the world. *)
Definition __init__ (self : nat) (region key secret url : pyval) : M unit :=
  update self (fun o =>
    Obj (Some region) (Some key) (Some secret) (Some url) (sqs o)) ;;
  _init_client self.

(** The call [SQSClient(region, key, secret, url)]: [type.__call__] runs
    [__new__] and then, as the result is an instance of the class,
    [__init__] on whatever [__new__] returned. *)
Definition new_SQSClient (region key secret url : pyval) : M nat :=
  self <- __new__ region key secret url ;;
  __init__ self region key secret url ;;
  ret self.

(** [SQSClient.__enter__] *)
Definition __enter__ (self : nat) : M nat :=
  _init_client self ;; ret self.

(** [SQSClient.__exit__]. No code assigns [None] to [self.sqs], so the
    test [self.sqs is not None] holds whenever the attribute can be read.
    The result [None] lets an exception of the [with] body propagate. *)
Definition __exit__ (self : nat) : M unit :=
  h <- getattr self "sqs" sqs ;;
  emit (Close h).

(** [SQSClient.send_message] *)
Definition send_message (t : transport) (self : nat) (body : string)
    : M (gmap string string) :=
  try_except
    (h <- getattr self "sqs" sqs ;;
     url <- getattr self "queue_url" queue_url ;;
     response <- send_message_request t h url body ;;
     id <- getitem response "MessageId" ;;
     emit (LogDebug ("Message sent: ID = " +:+ id)) ;;
     ret response)
    (fun e => Some (emit (LogError ("Failed to send message: " +:+ str_exn e)) ;;
                    raise e)).

(** How one turn of the [while] loop ends: with [return], or by falling
    out of the [except] block. *)
Inductive turn (A : Type) : Type :=
| Returned (a : A)
| Fell.
Arguments Returned {A} a.
Arguments Fell {A}.

(** [raise HTTPClientError]: raising the bare class makes Python call it
    with no argument. botocore builds the message of the exception by
    filling the template 'An HTTP Client raised an unhandled exception:
    {error}' with the keyword arguments of that call; with no [error]
    among them the filling raises [KeyError('error')], and that is the
    exception the statement ends with. *)
Definition raise_HTTPClientError {A} : M A := raise (KeyError "error").

(** The [try] statement inside the loop: one poll, and the [except
    WaiterError] block when the poll raises that. *)
Definition try_receive (t : transport) (self : nat)
    (max_retry_attempts max_batch visibility_timeout wait_time_seconds : Z)
    (retry_attempt : Z) : M (turn (list Message)) :=
  try_except
    (h <- getattr self "sqs" sqs ;;
     url <- getattr self "queue_url" queue_url ;;
     response <- receive_message t h url max_batch
                   visibility_timeout wait_time_seconds ;;
     let messages := get_Messages response in
     ret (Returned messages))
    (fun e =>
       if is_WaiterError e then Some (
         emit (LogDebug ("WaiterError: " +:+ str_exn e)) ;;
         emit (LogDebug ("Retry attempt: " +:+ pretty retry_attempt)) ;;
         _init_client self ;;
         if retry_attempt =? max_retry_attempts then
           emit (LogError "Max retry attempts reached. Exiting.") ;;
           raise_HTTPClientError
         else ret Fell)
       else None).

(** The [while] loop of [read_events_with_retry], from the value
    [retry_attempt] on. A loop that ends because its condition is false
    falls off the end of the function, which returns [None]. *)
Fixpoint retry_loop (fuel : nat) (t : transport) (self : nat)
    (max_retry_attempts max_batch visibility_timeout wait_time_seconds : Z)
    (retry_attempt : Z) : M (option (list Message)) :=
  match fuel with
  | O => out_of_fuel
  | S fuel' =>
      if retry_attempt <=? max_retry_attempts then
        r <- try_receive t self max_retry_attempts max_batch
               visibility_timeout wait_time_seconds retry_attempt ;;
        match r with
        | Returned messages => ret (Some messages)
        | Fell =>
            retry_loop fuel' t self max_retry_attempts max_batch
                       visibility_timeout wait_time_seconds (retry_attempt + 1)
        end
      else ret None
  end.

(** [SQSClient.read_events_with_retry]. [Some l] is the list [l], [None] is
    Python's [None]. The loop runs at most [max_retry_attempts] turns, and
    is given one more unit of fuel than that for the test that ends it. *)
Definition read_events_with_retry (t : transport) (self : nat)
    (max_retry_attempts max_batch visibility_timeout wait_time_seconds : Z)
    : M (option (list Message)) :=
  let retry_attempt := 1 in
  retry_loop (S (Z.to_nat max_retry_attempts)) t self max_retry_attempts
             max_batch visibility_timeout wait_time_seconds retry_attempt.

(** [SQSClient.delete_event_from_queue] *)
Definition delete_event_from_queue (t : transport) (self : nat)
    (event : gmap string string) : M unit :=
  h <- getattr self "sqs" sqs ;;
  url <- getattr self "queue_url" queue_url ;;
  receipt <- getitem event "ReceiptHandle" ;;
  delete_message t h url receipt.

(** [SQSClient.purge] *)
Definition purge (t : transport) (self : nat) : M unit :=
  try_except
    (h <- getattr self "sqs" sqs ;;
     url <- getattr self "queue_url" queue_url ;;
     purge_queue t h url ;;
     emit (Print "All messages have been purged from the queue."))
    (fun e => Some (emit (Print ("Failed to purge the queue: " +:+ str_exn e)))).

(** ** builder.py *)

Module builder.

(** The attributes of an [SQSClientBuilder]. The [with_*] methods assign
    to the builder and return it; here each returns the builder as it is
    after the assignment. *)
Record SQSClientBuilder : Type := Builder {
  region_name : pyval;
  aws_access_key_id : pyval;
  aws_secret_access_key : pyval;
  queue_url : pyval
}.

(** [SQSClientBuilder.__init__] *)
Definition new_SQSClientBuilder : SQSClientBuilder :=
  Builder PyNone PyNone PyNone PyNone.

Definition with_region (self : SQSClientBuilder) (region : pyval)
    : SQSClientBuilder :=
  Builder region (aws_access_key_id self) (aws_secret_access_key self)
          (queue_url self).

Definition with_aws_credentials (self : SQSClientBuilder)
    (key secret : pyval) : SQSClientBuilder :=
  Builder (region_name self) key secret (queue_url self).

Definition with_queue_url (self : SQSClientBuilder) (url : pyval)
    : SQSClientBuilder :=
  Builder (region_name self) (aws_access_key_id self)
          (aws_secret_access_key self) url.

(** The list [missing_fields] that [build] collects. *)
Definition missing_fields (self : SQSClientBuilder) : list string :=
  let missing_fields : list string := [] in
  let missing_fields :=
    if negb (truthy (region_name self))
    then (missing_fields ++ ["region_name"]) else missing_fields in
  let missing_fields :=
    if negb (truthy (aws_access_key_id self))
    then (missing_fields ++ ["aws_access_key_id"]) else missing_fields in
  let missing_fields :=
    if negb (truthy (aws_secret_access_key self))
    then (missing_fields ++ ["aws_secret_access_key"]) else missing_fields in
  let missing_fields :=
    if negb (truthy (queue_url self))
    then (missing_fields ++ ["queue_url"]) else missing_fields in
  missing_fields.

(** [SQSClientBuilder.build] *)
Definition build (self : SQSClientBuilder) : M nat :=
  match missing_fields self with
  | [] =>
      new_SQSClient (region_name self) (aws_access_key_id self)
                    (aws_secret_access_key self) (queue_url self)
  | _ :: _ =>
      raise (ValueError ("Missing required SQS connection parameters: "
                         +:+ String.concat ", " (missing_fields self)))
  end.

End builder.


(** ** Vocabulary of the statements *)

(** The object [self] is a fully initialised client: bound to the
    configuration [(region, key, secret, url)] and holding handle [h]. *)
Definition bound (w : world) (self : nat) (region key secret url : pyval)
    (h : handle) : Prop :=
  heap w !! self
  = Some (Obj (Some region) (Some key) (Some secret) (Some url) (Some h)).

(** [boto3.client] builds a client for these arguments. *)
Definition accepted (w : world) (region key secret : pyval) : Prop :=
  boto3_rejects w region key secret = None.

(** The world after more events. *)
Definition log_to (w : world) (evs : list event) : world :=
  World (heap w) (_instances w) (next_handle w) (trace w ++ evs)
        (boto3_rejects w).

(** The world after [self] polled with handle [h], caught a [WaiterError]
    on attempt [a], and rebuilt its handle. *)
Definition reconnected (w : world) (self : nat) (region key secret url : pyval)
    (h : handle) (mb vt wt a : Z) (msg : string) : world :=
  World (<[self := Obj (Some region) (Some key) (Some secret) (Some url)
                       (Some (next_handle w))]> (heap w))
        (_instances w)
        (S (next_handle w))
        (trace w ++ [ReceiveMessage h url mb vt wt;
                     LogDebug ("WaiterError: " +:+ msg);
                     LogDebug ("Retry attempt: " +:+ pretty a);
                     Boto3Client (next_handle w) region key secret])
        (boto3_rejects w).

(** A transport whose next [n] polls, counted from poll number [from], all
    fail with a [WaiterError]. *)
Definition transient_run (t : transport) (from n : nat) : Prop :=
  forall i, (i < n)%nat ->
    exists msg, on_receive t (from + i)%nat = inl (WaiterError msg).

(** *** The registry *)

(** A connection configuration: region, access key, secret key, queue
    endpoint. *)
Definition config : Type := pyval * pyval * pyval * pyval.

(** The configuration an object carries once its four attributes are
    assigned. *)
Definition config_of (o : SQSClient) : option config :=
  r ← region_name o; k ← aws_access_key_id o;
  s ← aws_secret_access_key o; q ← queue_url o;
  Some (r, k, s, q).

Definition config_at (w : world) (i : nat) : option config :=
  heap w !! i ≫= config_of.

Definition handle_at (w : world) (i : nat) : option handle :=
  heap w !! i ≫= sqs.

(** No two distinct registered instances carry the same configuration. *)
Definition registry_unique (w : world) : Prop :=
  forall i j, i ∈ _instances w -> j ∈ _instances w ->
    config_at w i = config_at w j -> i = j.

(** The invariant of [SQSClient._instances]: every entry is an object
    whose configuration is assigned, no object is entered twice, and
    configurations are not shared. *)
Definition registry_ok (w : world) : Prop :=
  NoDup (_instances w)
  /\ (forall i, i ∈ _instances w -> is_Some (config_at w i))
  /\ registry_unique w.

(** [w'] has every registered instance of [w], with the configuration it
    had. *)
Definition extends (w w' : world) : Prop :=
  forall i, i ∈ _instances w ->
    i ∈ _instances w' /\ config_at w' i = config_at w i.

(** A computation that leaves the registry, every configuration and the
    environment as they are. *)
Definition keeps_registry {A} (m : M A) : Prop :=
  forall w,
    _instances (snd (m w)) = _instances w
    /\ (forall i, config_at (snd (m w)) i = config_at w i)
    /\ boto3_rejects (snd (m w)) = boto3_rejects w.

(** The world after [__init__] ran on [self] with these arguments: the
    attributes are assigned and [self.sqs] is a handle just built. *)
Definition opened (w : world) (self : nat) (region key secret url : pyval)
    : world :=
  World (<[self := Obj (Some region) (Some key) (Some secret) (Some url)
                       (Some (next_handle w))]> (heap w))
        (_instances w)
        (S (next_handle w))
        (trace w ++ [Boto3Client (next_handle w) region key secret])
        (boto3_rejects w).

(** The world after [__init__] assigned the four attributes of [self]
    and [boto3.client] refused to build a handle: [self.sqs] is what it
    was before, unassigned for a new object. *)
Definition configured (w : world) (self : nat) (region key secret url : pyval)
    : world :=
  World (alter (fun o => Obj (Some region) (Some key) (Some secret)
                             (Some url) (sqs o)) self (heap w))
        (_instances w) (next_handle w) (trace w) (boto3_rejects w).

(** What the constructor call comes to once [__new__] has settled on the
    object [self]: [__init__] runs on it, and the call returns [self] or
    ends with the exception of [boto3.client]. *)
Definition built (w : world) (self : nat) (region key secret url : pyval)
    : outcome nat * world :=
  match boto3_rejects w region key secret with
  | None => (Return self, opened w self region key secret url)
  | Some e => (Raise e, configured w self region key secret url)
  end.

(** The world after [__new__] made an object and appended it to
    [_instances]. *)
Definition registered (w : world) : world :=
  World (heap w ++ [bare]) (_instances w ++ [length (heap w)])
        (next_handle w) (trace w) (boto3_rejects w).

(** *** Sample inputs *)

(** A process that has built one client. *)
Definition sample_world : world :=
  snd (new_SQSClient (PyStr "eu-west-1") (PyStr "AKIAEXAMPLE")
                     (PyStr "secret") (PyStr "https://sqs.example/q")
                     init_world).

Definition sample_message : Message := {[ "Body" := "hello" ]}.

(** The queue is reachable and empty. *)
Definition quiet : transport :=
  Transport (fun _ => inr (Response None)) (inr ∅) (inr tt) (inr tt).

(** The first two polls time out, the third delivers one message. *)
Definition flaky : transport :=
  Transport (fun n => match n with
                      | 0%nat | 1%nat => inl (WaiterError "timed out")
                      | _ => inr (Response (Some [sample_message]))
                      end)
            (inr ∅) (inr tt) (inr tt).

(** The first poll delivers one message. *)
Definition delivering : transport :=
  Transport (fun _ => inr (Response (Some [sample_message])))
            (inr ∅) (inr tt) (inr tt).

(** Every poll times out. *)
Definition down : transport :=
  Transport (fun _ => inl (WaiterError "timed out")) (inr ∅) (inr tt) (inr tt).

(** One poll times out, then the service refuses every request. *)
Definition denied : transport :=
  Transport (fun n => match n with
                      | 0%nat => inl (WaiterError "timed out")
                      | _ => inl (ClientError "AccessDenied")
                      end)
            (inl (ClientError "AccessDenied"))
            (inl (ClientError "AccessDenied"))
            (inl (ClientError "AccessDenied")).

(** Every object that holds a handle has a region and credentials that
    [boto3.client] accepts. *)
Definition handles_ok (w : world) : Prop :=
  forall i o h, heap w !! i = Some o -> sqs o = Some h ->
    exists r k s,
      region_name o = Some r /\ aws_access_key_id o = Some k
      /\ aws_secret_access_key o = Some s /\ accepted w r k s.

(** A computation that keeps it so. *)
Definition keeps_handles {A} (m : M A) : Prop :=
  forall w, handles_ok w -> handles_ok (snd (m w)).

(** The calls a program can make on this package. *)
Inductive call : Type :=
| CallSQSClient (region key secret url : pyval)
| CallBuild (b : builder.SQSClientBuilder)
| CallEnter (self : nat)
| CallExit (self : nat)
| CallSendMessage (t : transport) (self : nat) (body : string)
| CallReadEvents (t : transport) (self : nat)
    (max_retry_attempts max_batch visibility_timeout wait_time_seconds : Z)
| CallDeleteEvent (t : transport) (self : nat) (event : gmap string string)
| CallPurge (t : transport) (self : nat).

(** The world a call leaves behind, whether it returns or raises. *)
Definition after (c : call) (w : world) : world :=
  match c with
  | CallSQSClient region key secret url =>
      snd (new_SQSClient region key secret url w)
  | CallBuild b => snd (builder.build b w)
  | CallEnter self => snd (__enter__ self w)
  | CallExit self => snd (__exit__ self w)
  | CallSendMessage t self body => snd (send_message t self body w)
  | CallReadEvents t self m mb vt wt =>
      snd (read_events_with_retry t self m mb vt wt w)
  | CallDeleteEvent t self event =>
      snd (delete_event_from_queue t self event w)
  | CallPurge t self => snd (purge t self w)
  end.

(** [reaches w w']: some sequence of calls leads from [w] to [w']. *)
Inductive reaches (w : world) : world -> Prop :=
| reaches_refl : reaches w w
| reaches_step (w' : world) (c : call) :
    reaches w w' -> reaches w (after c w').

(** The worlds a process can be in: those some sequence of calls leads
    to from a fresh start, in the environment of the process. *)
Definition reachable (w : world) : Prop :=
  reaches (start (boto3_rejects w)) w.

(** *** Further vocabulary *)

(** What a receive call on a client bound to this configuration may emit:
    polls of its own queue with the parameters of the call, handle builds
    with its own region and credentials, and log records. *)
Definition receive_event (region key secret url : pyval) (mb vt wt : Z)
    (ev : event) : Prop :=
  match ev with
  | ReceiveMessage _ u a b c => u = url /\ a = mb /\ b = vt /\ c = wt
  | Boto3Client _ r k s => r = region /\ k = key /\ s = secret
  | LogDebug _ | LogError _ => True
  | _ => False
  end.

(** The names [build] can report, in the order it tests them. *)
Definition field_names : list string :=
  ["region_name"; "aws_access_key_id"; "aws_secret_access_key"; "queue_url"].

(** The calls that go through [SQSClient.__new__]. *)
Definition is_constructor (c : call) : bool :=
  match c with
  | CallSQSClient _ _ _ _ | CallBuild _ => true
  | _ => false
  end.

(** The service acknowledges a send with a message identifier. *)
Definition acking : transport :=
  Transport (fun _ => inr (Response None))
            (inr {[ "MessageId" := "m-1" ]}) (inr tt) (inr tt).

(** ** Counting events *)

Lemma polls_in_app (evs1 evs2 : list event) :
  polls_in (evs1 ++ evs2) = (polls_in evs1 + polls_in evs2)%nat.
Proof. unfold polls_in. by rewrite filter_app, length_app. Qed.

Lemma connects_in_app (evs1 evs2 : list event) :
  connects_in (evs1 ++ evs2) = (connects_in evs1 + connects_in evs2)%nat.
Proof. unfold connects_in. by rewrite filter_app, length_app. Qed.

(** ** One turn of the retry loop *)

Lemma alter_bound {A} (f : A -> A) (l : list A) (i : nat) (x : A) :
  l !! i = Some x -> alter f i l = <[i := f x]> l.
Proof.
  revert i. induction l as [|y l IH]; intros [|i] Hi; simplify_eq/=; auto.
  f_equal. by apply IH.
Qed.

Section one_turn.
Variables (t : transport) (self : nat).
Variables (region key secret url : pyval) (h : handle).
Variables (max_retry_attempts max_batch visibility_timeout
           wait_time_seconds retry_attempt : Z).
Variable w : world.
Hypothesis Hbound : bound w self region key secret url h.

Let poll : event :=
  ReceiveMessage h url max_batch visibility_timeout wait_time_seconds.

Lemma getattr_bound {A} (name : string) (proj : SQSClient -> option A)
    (v : A) (evs : list event) :
  proj (Obj (Some region) (Some key) (Some secret) (Some url) (Some h))
  = Some v ->
  getattr self name proj (log_to w evs) = (Return v, log_to w evs).
Proof.
  intros Hv. unfold getattr. cbn [heap log_to]. red in Hbound.
  by rewrite Hbound; simpl; rewrite Hv.
Qed.

Lemma init_client_bound (evs : list event) :
  accepted w region key secret ->
  _init_client self (log_to w evs)
  = (Return tt,
     World (<[self := Obj (Some region) (Some key) (Some secret) (Some url)
                          (Some (next_handle w))]> (heap w))
           (_instances w) (S (next_handle w))
           (trace w ++ evs ++ [Boto3Client (next_handle w) region key secret])
           (boto3_rejects w)).
Proof.
  intros Hacc. red in Hacc. unfold _init_client, bind.
  rewrite (getattr_bound "region_name" region_name region evs eq_refl).
  rewrite (getattr_bound "aws_access_key_id" aws_access_key_id key evs
                         eq_refl).
  rewrite (getattr_bound "aws_secret_access_key" aws_secret_access_key
                         secret evs eq_refl).
  unfold boto3_client, update. cbn. rewrite Hacc. cbn.
  rewrite (alter_bound _ _ _ _ Hbound). cbn. by rewrite <- (assoc_L (++)).
Qed.

Lemma init_client_rejected (evs : list event) (e : exn) :
  boto3_rejects w region key secret = Some e ->
  _init_client self (log_to w evs) = (Raise e, log_to w evs).
Proof.
  intros Hrej. unfold _init_client, bind.
  rewrite (getattr_bound "region_name" region_name region evs eq_refl).
  rewrite (getattr_bound "aws_access_key_id" aws_access_key_id key evs
                         eq_refl).
  rewrite (getattr_bound "aws_secret_access_key" aws_secret_access_key
                         secret evs eq_refl).
  unfold boto3_client. cbn. by rewrite Hrej.
Qed.

Lemma try_receive_ok (resp : response) :
  on_receive t (polls_in (trace w)) = inr resp ->
  try_receive t self max_retry_attempts max_batch visibility_timeout
              wait_time_seconds retry_attempt w
  = (Return (Returned (get_Messages resp)), log_to w [poll]).
Proof.
  intros Hr. unfold try_receive, try_except, bind.
  assert (Hw : w = log_to w []).
  { destruct w; unfold log_to; cbn. by rewrite (right_id_L [] (++)). }
  rewrite Hw at 1.
  rewrite (getattr_bound "sqs" sqs h [] eq_refl).
  rewrite (getattr_bound "queue_url" queue_url url [] eq_refl).
  rewrite <- Hw.
  unfold receive_message, bind, emit. cbn. rewrite Hr. reflexivity.
Qed.

Lemma try_receive_hard (e : exn) :
  on_receive t (polls_in (trace w)) = inl e ->
  is_WaiterError e = false ->
  try_receive t self max_retry_attempts max_batch visibility_timeout
              wait_time_seconds retry_attempt w
  = (Raise e, log_to w [poll]).
Proof.
  intros Hr He. unfold try_receive, try_except, bind.
  assert (Hw : w = log_to w []).
  { destruct w; unfold log_to; cbn. by rewrite (right_id_L [] (++)). }
  rewrite Hw at 1.
  rewrite (getattr_bound "sqs" sqs h [] eq_refl).
  rewrite (getattr_bound "queue_url" queue_url url [] eq_refl).
  rewrite <- Hw.
  unfold receive_message, bind, emit. cbn. rewrite Hr. cbn. by rewrite He.
Qed.

Lemma try_receive_transient (msg : string) :
  accepted w region key secret ->
  on_receive t (polls_in (trace w)) = inl (WaiterError msg) ->
  try_receive t self max_retry_attempts max_batch visibility_timeout
              wait_time_seconds retry_attempt w
  = if retry_attempt =? max_retry_attempts then
      (Raise (KeyError "error"),
       log_to (reconnected w self region key secret url h max_batch
                           visibility_timeout wait_time_seconds
                           retry_attempt msg)
              [LogError "Max retry attempts reached. Exiting."])
    else
      (Return Fell,
       reconnected w self region key secret url h max_batch
                   visibility_timeout wait_time_seconds retry_attempt msg).
Proof.
  intros Hacc Hr. unfold try_receive, try_except, bind.
  assert (Hw : w = log_to w []).
  { destruct w; unfold log_to; cbn. by rewrite (right_id_L [] (++)). }
  rewrite Hw at 1.
  rewrite (getattr_bound "sqs" sqs h [] eq_refl).
  rewrite (getattr_bound "queue_url" queue_url url [] eq_refl).
  rewrite <- Hw.
  unfold receive_message, bind, emit. cbn. rewrite Hr. cbn.
  rewrite <- !(assoc_L (++)). cbn [app].
  match goal with
  | |- context [ _init_client self ?x ] =>
      match x with
      | context [ trace w ++ ?evs ] => change x with (log_to w evs)
      end
  end.
  rewrite (init_client_bound _ Hacc).
  destruct (retry_attempt =? max_retry_attempts); reflexivity.
Qed.

(** The reconnect itself can fail: then the [except] block ends with the
    exception of [boto3.client], before the test on the attempt number. *)
Lemma try_receive_rejected (msg : string) (e : exn) :
  boto3_rejects w region key secret = Some e ->
  on_receive t (polls_in (trace w)) = inl (WaiterError msg) ->
  try_receive t self max_retry_attempts max_batch visibility_timeout
              wait_time_seconds retry_attempt w
  = (Raise e,
     log_to w [poll; LogDebug ("WaiterError: " +:+ msg);
               LogDebug ("Retry attempt: " +:+ pretty retry_attempt)]).
Proof.
  intros Hrej Hr. unfold try_receive, try_except, bind.
  assert (Hw : w = log_to w []).
  { destruct w; unfold log_to; cbn. by rewrite (right_id_L [] (++)). }
  rewrite Hw at 1.
  rewrite (getattr_bound "sqs" sqs h [] eq_refl).
  rewrite (getattr_bound "queue_url" queue_url url [] eq_refl).
  rewrite <- Hw.
  unfold receive_message, bind, emit. cbn. rewrite Hr. cbn.
  rewrite <- !(assoc_L (++)). cbn [app].
  match goal with
  | |- context [ _init_client self ?x ] =>
      match x with
      | context [ trace w ++ ?evs ] => change x with (log_to w evs)
      end
  end.
  by rewrite (init_client_rejected _ _ Hrej).
Qed.

Lemma reconnected_bound (msg : string) :
  bound (reconnected w self region key secret url h max_batch
                     visibility_timeout wait_time_seconds retry_attempt msg)
        self region key secret url (next_handle w).
Proof.
  unfold bound, reconnected. cbn.
  apply list_lookup_insert_eq. by eapply lookup_lt_Some.
Qed.

Lemma reconnected_polls (msg : string) :
  polls_in (trace (reconnected w self region key secret url h max_batch
                     visibility_timeout wait_time_seconds retry_attempt msg))
  = S (polls_in (trace w)).
Proof.
  unfold reconnected. cbn [trace]. rewrite polls_in_app.
  match goal with
  | |- (_ + ?n)%nat = _ => change n with 1%nat
  end.
  lia.
Qed.

End one_turn.

(** ** The retry loop on an initialised client *)

Section retry_loop_bound.
Variables (t : transport) (self : nat).
Variables (region key secret url : pyval).
Variables (max_retry_attempts max_batch visibility_timeout
           wait_time_seconds : Z).

Lemma retry_loop_done (fuel : nat) (retry_attempt : Z) (w : world) :
  max_retry_attempts < retry_attempt ->
  retry_loop (S fuel) t self max_retry_attempts max_batch visibility_timeout
             wait_time_seconds retry_attempt w
  = (Return None, w).
Proof.
  intros Hlt. cbn [retry_loop].
  destruct (Z.leb_spec retry_attempt max_retry_attempts); [lia | done].
Qed.

Lemma retry_loop_ok (fuel : nat) (retry_attempt : Z) (w : world)
    (h : handle) (resp : response) :
  bound w self region key secret url h ->
  retry_attempt <= max_retry_attempts ->
  on_receive t (polls_in (trace w)) = inr resp ->
  retry_loop (S fuel) t self max_retry_attempts max_batch visibility_timeout
             wait_time_seconds retry_attempt w
  = (Return (Some (get_Messages resp)),
     log_to w [ReceiveMessage h url max_batch visibility_timeout
                              wait_time_seconds]).
Proof.
  intros Hb Hle Hr. cbn [retry_loop].
  destruct (Z.leb_spec retry_attempt max_retry_attempts); [|lia].
  unfold bind.
  by erewrite try_receive_ok by eassumption.
Qed.

Lemma retry_loop_hard (fuel : nat) (retry_attempt : Z) (w : world)
    (h : handle) (e : exn) :
  bound w self region key secret url h ->
  retry_attempt <= max_retry_attempts ->
  on_receive t (polls_in (trace w)) = inl e ->
  is_WaiterError e = false ->
  retry_loop (S fuel) t self max_retry_attempts max_batch visibility_timeout
             wait_time_seconds retry_attempt w
  = (Raise e,
     log_to w [ReceiveMessage h url max_batch visibility_timeout
                              wait_time_seconds]).
Proof.
  intros Hb Hle Hr He. cbn [retry_loop].
  destruct (Z.leb_spec retry_attempt max_retry_attempts); [|lia].
  unfold bind.
  by erewrite try_receive_hard by eassumption.
Qed.

Lemma retry_loop_retry (fuel : nat) (retry_attempt : Z) (w : world)
    (h : handle) (msg : string) :
  bound w self region key secret url h ->
  accepted w region key secret ->
  retry_attempt < max_retry_attempts ->
  on_receive t (polls_in (trace w)) = inl (WaiterError msg) ->
  retry_loop (S fuel) t self max_retry_attempts max_batch visibility_timeout
             wait_time_seconds retry_attempt w
  = retry_loop fuel t self max_retry_attempts max_batch visibility_timeout
               wait_time_seconds (retry_attempt + 1)
               (reconnected w self region key secret url h max_batch
                  visibility_timeout wait_time_seconds retry_attempt msg).
Proof.
  intros Hb Hacc Hlt Hr. cbn [retry_loop].
  destruct (Z.leb_spec retry_attempt max_retry_attempts); [|lia].
  unfold bind.
  erewrite try_receive_transient by eassumption.
  destruct (Z.eqb_spec retry_attempt max_retry_attempts); [lia | done].
Qed.

Lemma retry_loop_exhausted (fuel : nat) (w : world) (h : handle)
    (msg : string) :
  bound w self region key secret url h ->
  accepted w region key secret ->
  on_receive t (polls_in (trace w)) = inl (WaiterError msg) ->
  retry_loop (S fuel) t self max_retry_attempts max_batch visibility_timeout
             wait_time_seconds max_retry_attempts w
  = (Raise (KeyError "error"),
     log_to (reconnected w self region key secret url h max_batch
               visibility_timeout wait_time_seconds max_retry_attempts msg)
            [LogError "Max retry attempts reached. Exiting."]).
Proof.
  intros Hb Hacc Hr. cbn [retry_loop]. rewrite Z.leb_refl. unfold bind.
  erewrite try_receive_transient by eassumption.
  by rewrite Z.eqb_refl.
Qed.

Lemma retry_loop_rejected (fuel : nat) (retry_attempt : Z) (w : world)
    (h : handle) (msg : string) (e : exn) :
  bound w self region key secret url h ->
  boto3_rejects w region key secret = Some e ->
  retry_attempt <= max_retry_attempts ->
  on_receive t (polls_in (trace w)) = inl (WaiterError msg) ->
  retry_loop (S fuel) t self max_retry_attempts max_batch visibility_timeout
             wait_time_seconds retry_attempt w
  = (Raise e,
     log_to w [ReceiveMessage h url max_batch visibility_timeout
                              wait_time_seconds;
               LogDebug ("WaiterError: " +:+ msg);
               LogDebug ("Retry attempt: " +:+ pretty retry_attempt)]).
Proof.
  intros Hb Hrej Hle Hr. cbn [retry_loop].
  destruct (Z.leb_spec retry_attempt max_retry_attempts); [|lia].
  unfold bind.
  by erewrite try_receive_rejected by eassumption.
Qed.

End retry_loop_bound.

(** ** The retry loop on any object, in any world *)

Section retry_loop_any.
Variables (t : transport) (self : nat).
Variables (max_retry_attempts max_batch visibility_timeout
           wait_time_seconds : Z).

(** Whatever the state of [self] and whatever the transport answers, one
    turn issues at most one poll and one reconnect, and it falls out of
    its [except] block only before the last allowed attempt. *)
Lemma try_receive_cases (retry_attempt : Z) (w : world) :
  exists o w' evs,
    try_receive t self max_retry_attempts max_batch visibility_timeout
                wait_time_seconds retry_attempt w = (o, w')
    /\ trace w' = trace w ++ evs
    /\ (polls_in evs <= 1)%nat
    /\ (connects_in evs <= 1)%nat
    /\ o <> OutOfFuel
    /\ (o = Return Fell -> retry_attempt <> max_retry_attempts).
Proof.
  unfold try_receive, try_except, bind, getattr, receive_message, bind, emit,
    _init_client, bind, getattr, boto3_client, update.
  cbn [heap trace _instances next_handle boto3_rejects].
  destruct (heap w !! self ≫= sqs) as [h|]; cbn;
    [|eexists _, _, []; rewrite app_nil_r; repeat split; auto; done].
  destruct (heap w !! self ≫= queue_url) as [q|]; cbn;
    [|eexists _, _, []; rewrite app_nil_r; repeat split; auto; done].
  destruct (on_receive t (polls_in (trace w))) as [e|resp]; cbn;
    [|eexists _, _, [_]; repeat split; cbn; auto; done].
  destruct (is_WaiterError e); cbn;
    [|eexists _, _, [_]; repeat split; cbn; auto; done].
  destruct (heap w !! self ≫= region_name) as [r|]; cbn;
    [|eexists _, _, [_; _; _]; rewrite <- !(assoc_L (++)); repeat split;
      cbn; auto; done].
  destruct (heap w !! self ≫= aws_access_key_id) as [k|]; cbn;
    [|eexists _, _, [_; _; _]; rewrite <- !(assoc_L (++)); repeat split;
      cbn; auto; done].
  destruct (heap w !! self ≫= aws_secret_access_key) as [s|]; cbn;
    [|eexists _, _, [_; _; _]; rewrite <- !(assoc_L (++)); repeat split;
      cbn; auto; done].
  destruct (boto3_rejects w r k s) as [e'|]; cbn;
    [eexists _, _, [_; _; _]; rewrite <- !(assoc_L (++)); repeat split;
      cbn; auto; done|].
  destruct (Z.eqb_spec retry_attempt max_retry_attempts); cbn.
  - eexists _, _, [_; _; _; _; _]. rewrite <- !(assoc_L (++)).
    repeat split; cbn; auto; done.
  - eexists _, _, [_; _; _; _]. rewrite <- !(assoc_L (++)).
    repeat split; cbn; auto; done.
Qed.

(** With more fuel than attempts left, the loop ends by itself, within
    the attempts left. *)
Lemma retry_loop_bounded (fuel : nat) :
  forall (retry_attempt : Z) (w : world),
    (Z.to_nat (max_retry_attempts + 1 - retry_attempt) < fuel)%nat ->
    exists o w' evs,
      retry_loop fuel t self max_retry_attempts max_batch visibility_timeout
                 wait_time_seconds retry_attempt w = (o, w')
      /\ o <> OutOfFuel
      /\ trace w' = trace w ++ evs
      /\ (polls_in evs
          <= Z.to_nat (max_retry_attempts + 1 - retry_attempt))%nat
      /\ (connects_in evs
          <= Z.to_nat (max_retry_attempts + 1 - retry_attempt))%nat
      /\ (retry_attempt <= max_retry_attempts -> o <> Return None).
Proof.
  induction fuel as [|fuel IH]; intros a w Hfuel; [lia|].
  cbn [retry_loop]. destruct (Z.leb_spec a max_retry_attempts) as [Hle|Hgt].
  - destruct (try_receive_cases a w)
      as (o & w1 & evs1 & Hrun & Htr & Hp & Hc & Hfuel1 & Hfell).
    unfold bind. rewrite Hrun.
    destruct o as [[msgs|]|e|].
    + exists (Return (Some msgs)), w1, evs1.
      split_and!; auto; try lia; done.
    + specialize (Hfell eq_refl).
      destruct (IH (a + 1) w1)
        as (o & w2 & evs2 & Hrun2 & Ho & Htr2 & Hp2 & Hc2 & Hres2); [lia|].
      exists o, w2, (evs1 ++ evs2). rewrite Hrun2, Htr2, Htr.
      rewrite polls_in_app, connects_in_app, (assoc_L (++)).
      split_and!; auto; try lia. intros _. apply Hres2. lia.
    + exists (Raise e), w1, evs1. split_and!; auto; try lia; done.
    + done.
  - exists (Return None), w, []. rewrite app_nil_r. cbn.
    split_and!; auto; try lia; done.
Qed.

End retry_loop_any.

(** ** Computations that leave the registry alone *)

Create HintDb keeps.

Lemma keeps_ret {A} (a : A) : keeps_registry (ret a).
Proof. by intros w. Qed.

Lemma keeps_raise {A} (e : exn) : keeps_registry (@raise A e).
Proof. by intros w. Qed.

Lemma keeps_out_of_fuel {A} : keeps_registry (@out_of_fuel A).
Proof. by intros w. Qed.

Lemma keeps_bind {A B} (m : M A) (f : A -> M B) :
  keeps_registry m -> (forall a, keeps_registry (f a)) ->
  keeps_registry (bind m f).
Proof.
  intros Hm Hf w. unfold bind. destruct (Hm w) as (Hi & Hc & He).
  destruct (m w) as [[a| |] w1]; cbn in *; auto.
  destruct (Hf a w1) as (Hi' & Hc' & He'). split_and!; [congruence| |congruence].
  intros i. by rewrite Hc', Hc.
Qed.

Lemma keeps_try_except {A} (m : M A) (h : exn -> option (M A)) :
  keeps_registry m -> (forall e k, h e = Some k -> keeps_registry k) ->
  keeps_registry (try_except m h).
Proof.
  intros Hm Hh w. unfold try_except. destruct (Hm w) as (Hi & Hc & Hv).
  destruct (m w) as [[a|e|] w1]; cbn in *; auto.
  destruct (h e) as [k|] eqn:He; cbn; auto.
  destruct (Hh e k He w1) as (Hi' & Hc' & Hv').
  split_and!; [congruence| |congruence].
  intros i. by rewrite Hc', Hc.
Qed.

Lemma keeps_emit (ev : event) : keeps_registry (emit ev).
Proof. by intros w. Qed.

Lemma keeps_getattr {A} (self : nat) (name : string)
    (proj : SQSClient -> option A) :
  keeps_registry (getattr self name proj).
Proof. intros w. unfold getattr. by destruct (heap w !! self ≫= proj). Qed.

Lemma keeps_boto3_client (region key secret : pyval) :
  keeps_registry (boto3_client region key secret).
Proof.
  intros w. unfold boto3_client.
  by destruct (boto3_rejects w region key secret).
Qed.

Lemma keeps_of_reply {A} (r : reply A) : keeps_registry (of_reply r).
Proof. destruct r; apply keeps_raise || apply keeps_ret. Qed.

Lemma keeps_getitem (d : gmap string string) (key : string) :
  keeps_registry (getitem d key).
Proof.
  unfold getitem. destruct (d !! key); apply keeps_ret || apply keeps_raise.
Qed.

(** Assigning [self.sqs] does not touch the configuration. *)
Lemma keeps_update (self : nat) (f : SQSClient -> SQSClient) :
  (forall o, config_of (f o) = config_of o) ->
  keeps_registry (update self f).
Proof.
  intros Hf w. split_and!; [done| |done].
  intros i. unfold config_at, update. cbn.
  rewrite list_lookup_alter. case_decide; [subst i|done].
  destruct (heap w !! self); cbn; auto.
Qed.

#[local] Hint Resolve keeps_ret keeps_raise keeps_out_of_fuel keeps_emit
  keeps_getattr keeps_boto3_client keeps_of_reply keeps_getitem : keeps.

#[local] Ltac keeps_step :=
  first
    [ apply keeps_bind; [|intros ?]
    | apply keeps_try_except; [|intros ? ? ?]
    | apply keeps_update; intros []; reflexivity
    | solve [auto with keeps] ].

Lemma keeps_receive_message (t : transport) (h : handle) (url : pyval)
    (mb vt wt : Z) :
  keeps_registry (receive_message t h url mb vt wt).
Proof. by intros w; unfold receive_message, bind, emit; cbn;
         destruct (on_receive t _). Qed.

Lemma keeps_init_client (self : nat) : keeps_registry (_init_client self).
Proof. unfold _init_client. repeat keeps_step. Qed.

#[local] Hint Resolve keeps_receive_message keeps_init_client : keeps.

Lemma keeps_enter (self : nat) : keeps_registry (__enter__ self).
Proof. unfold __enter__. repeat keeps_step. Qed.

Lemma keeps_exit (self : nat) : keeps_registry (__exit__ self).
Proof. unfold __exit__. repeat keeps_step. Qed.

Lemma keeps_send_message (t : transport) (self : nat) (body : string) :
  keeps_registry (send_message t self body).
Proof.
  unfold send_message, send_message_request. repeat keeps_step.
  simplify_eq. repeat keeps_step.
Qed.

Lemma keeps_delete_event (t : transport) (self : nat)
    (event : gmap string string) :
  keeps_registry (delete_event_from_queue t self event).
Proof. unfold delete_event_from_queue, delete_message. repeat keeps_step. Qed.

Lemma keeps_purge (t : transport) (self : nat) :
  keeps_registry (purge t self).
Proof.
  unfold purge, purge_queue. repeat keeps_step. simplify_eq. repeat keeps_step.
Qed.

Lemma keeps_try_receive (t : transport) (self : nat) (m mb vt wt a : Z) :
  keeps_registry (try_receive t self m mb vt wt a).
Proof.
  unfold try_receive, raise_HTTPClientError. repeat keeps_step.
  destruct (is_WaiterError _); simplify_eq. repeat keeps_step.
  destruct (a =? m); repeat keeps_step.
Qed.

Lemma keeps_retry_loop (t : transport) (self : nat) (m mb vt wt : Z)
    (fuel : nat) :
  forall a, keeps_registry (retry_loop fuel t self m mb vt wt a).
Proof.
  induction fuel as [|fuel IH]; intros a; cbn [retry_loop]; [keeps_step|].
  destruct (a <=? m); [|keeps_step].
  apply keeps_bind; [apply keeps_try_receive|].
  intros [msgs|]; [keeps_step | apply IH].
Qed.

Lemma keeps_read_events (t : transport) (self : nat) (m mb vt wt : Z) :
  keeps_registry (read_events_with_retry t self m mb vt wt).
Proof. apply keeps_retry_loop. Qed.

Lemma keeps_registry_ok {A} (m : M A) (w : world) :
  keeps_registry m -> registry_ok w -> registry_ok (snd (m w)).
Proof.
  intros Hm (Hnd & Hsome & Huniq). destruct (Hm w) as (Hi & Hc & _).
  unfold registry_ok, registry_unique. rewrite Hi. split_and!; [done|..].
  - intros i Hin. rewrite Hc. auto.
  - intros i j Hin Hjn. rewrite !Hc. auto.
Qed.

Lemma keeps_extends {A} (m : M A) (w : world) :
  keeps_registry m -> extends w (snd (m w)).
Proof.
  intros Hm i Hin. destruct (Hm w) as (Hi & Hc & _). by rewrite Hi, Hc.
Qed.

(** ** Construction and the registry *)

Lemma config_at_Some (w : world) (i : nat) (r k s q : pyval) :
  config_at w i = Some (r, k, s, q)
  <-> exists h, heap w !! i = Some (Obj (Some r) (Some k) (Some s) (Some q) h).
Proof.
  unfold config_at, config_of. split.
  - destruct (heap w !! i) as [[[r'|] [k'|] [s'|] [q'|] h]|];
      intros; simplify_eq/=. by exists h.
  - intros [h ->]. reflexivity.
Qed.

Lemma registered_in_heap (w : world) (i : nat) :
  is_Some (config_at w i) -> (i < length (heap w))%nat.
Proof.
  unfold config_at. intros [c Hc]. apply lookup_lt_is_Some.
  destruct (heap w !! i); [eauto | done].
Qed.

(** The scan finds an instance with the requested configuration exactly
    when the registry has one. *)
Lemma scan_instances_spec (w : world) (r k s q : pyval) (l : list nat) :
  (forall i, i ∈ l -> is_Some (config_at w i)) ->
  exists res,
    scan_instances l r k s q w = (Return res, w)
    /\ match res with
       | Some i => i ∈ l /\ config_at w i = Some (r, k, s, q)
       | None => forall i, i ∈ l -> config_at w i <> Some (r, k, s, q)
       end.
Proof.
  induction l as [|a l IH]; intros Hall.
  { exists None. split; [done|]. intros i Hi. by apply elem_of_nil in Hi. }
  destruct IH as (res & Hres & Hspec).
  { intros i Hi. apply Hall. by right. }
  destruct (Hall a) as [[[[r0 k0] s0] q0] Ha]; [by left|].
  pose proof Ha as Hcfg. apply config_at_Some in Ha as [h Ha].
  assert (Hmiss : (r0, k0, s0, q0) <> (r, k, s, q) ->
    exists res, scan_instances l r k s q w = (Return res, w) /\
      match res with
      | Some i => i ∈ a :: l /\ config_at w i = Some (r, k, s, q)
      | None => forall i, i ∈ a :: l -> config_at w i <> Some (r, k, s, q)
      end).
  { intros Hne. exists res. split; [done|]. destruct res as [i|].
    - destruct Hspec. split; [by right | done].
    - intros i [->|Hi]%elem_of_cons; [congruence | auto]. }
  cbn [scan_instances]. unfold bind, getattr. rewrite Ha. cbn.
  case_bool_decide; cbn; [|apply Hmiss; congruence].
  rewrite Ha. cbn.
  case_bool_decide; cbn; [|apply Hmiss; congruence].
  rewrite Ha. cbn.
  case_bool_decide; cbn; [|apply Hmiss; congruence].
  rewrite Ha. cbn.
  case_bool_decide; cbn; [|apply Hmiss; congruence].
  subst. exists (Some a). split; [done|]. split; [by left | done].
Qed.

(** [__init__] on an object of the heap, and the return of [self]. *)
Lemma init_spec (w : world) (self : nat) (r k s q : pyval) :
  (self < length (heap w))%nat ->
  bind (__init__ self r k s q) (fun _ => ret self) w = built w self r k s q.
Proof.
  intros Hlt. destruct (lookup_lt_is_Some_2 _ _ Hlt) as [o Ho].
  unfold built, __init__, bind, update, configured. cbn.
  rewrite (alter_bound _ _ _ _ Ho).
  unfold _init_client, bind, getattr, boto3_client, update, opened. cbn.
  rewrite (list_lookup_insert_eq _ _ _ Hlt). cbn.
  rewrite (list_lookup_insert_eq _ _ _ Hlt). cbn.
  rewrite (list_lookup_insert_eq _ _ _ Hlt). cbn.
  destruct (boto3_rejects w r k s) as [e|]; cbn; [done|].
  erewrite alter_bound by (by apply list_lookup_insert_eq).
  by rewrite list_insert_insert_eq.
Qed.

(** What [SQSClient(region, key, secret, url)] does in a world whose
    registry is in order: [__new__] settles on the registered instance
    that has this configuration if there is one, and on a new, registered
    object otherwise; in both cases [__init__] runs on it. *)
Lemma new_SQSClient_cases (w : world) (r k s q : pyval) :
  registry_ok w ->
  (exists i, i ∈ _instances w /\ config_at w i = Some (r, k, s, q)
     /\ new_SQSClient r k s q w = built w i r k s q)
  \/ ((forall i, i ∈ _instances w -> config_at w i <> Some (r, k, s, q))
      /\ new_SQSClient r k s q w
         = built (registered w) (length (heap w)) r k s q).
Proof.
  intros (Hnd & Hsome & Huniq).
  destruct (scan_instances_spec w r k s q (_instances w) Hsome)
    as ([i|] & Hscan & Hspec).
  - left. exists i. destruct Hspec as [Hin Hcfg]. split_and!; [done..|].
    rewrite <- init_spec
      by (apply registered_in_heap; rewrite Hcfg; eauto).
    unfold new_SQSClient, __new__, _get_existing_instance.
    unfold bind at 1 2 3. by rewrite Hscan.
  - right. split; [done|].
    rewrite <- init_spec by (cbn; rewrite length_app; cbn; lia).
    unfold new_SQSClient, __new__, _get_existing_instance.
    unfold bind at 1 2 3. by rewrite Hscan.
Qed.

Lemma extends_refl (w : world) : extends w w.
Proof. by intros i Hi. Qed.

Lemma extends_trans (w1 w2 w3 : world) :
  extends w1 w2 -> extends w2 w3 -> extends w1 w3.
Proof.
  intros H12 H23 i Hi. destruct (H12 i Hi) as [Hi2 Hc2].
  destruct (H23 i Hi2) as [Hi3 Hc3]. split; [done | congruence].
Qed.

Lemma start_ok (env : boto3_env) : registry_ok (start env).
Proof.
  split_and!.
  - constructor.
  - intros i Hi. by apply elem_of_nil in Hi.
  - intros i j Hi. by apply elem_of_nil in Hi.
Qed.

(** [__new__] leaves every configuration as it is: the new object has
    none. *)
Lemma registered_config (w : world) (j : nat) :
  config_at (registered w) j = config_at w j.
Proof.
  unfold config_at, registered. cbn.
  destruct (decide (j < length (heap w))%nat) as [Hlt|Hge].
  - by rewrite lookup_app_l.
  - rewrite (lookup_ge_None_2 (heap w)) by lia.
    destruct (decide (j = length (heap w))) as [->|Hne].
    + by rewrite list_lookup_middle.
    + rewrite lookup_ge_None_2; [done|]. rewrite length_app. cbn. lia.
Qed.

(** After [__init__] the object has the configuration asked for, whether
    or not a handle was built; the other objects keep theirs. *)
Lemma built_config (w : world) (i : nat) (r k s q : pyval) (j : nat) :
  (i < length (heap w))%nat ->
  config_at (snd (built w i r k s q)) j
  = if decide (j = i) then Some (r, k, s, q) else config_at w j.
Proof.
  intros Hlt. destruct (lookup_lt_is_Some_2 _ _ Hlt) as [o Ho].
  unfold built, config_at.
  destruct (boto3_rejects w r k s) as [e|]; cbn.
  - rewrite (alter_bound _ _ _ _ Ho).
    case_decide as Hj; [subst j|].
    + by rewrite list_lookup_insert_eq.
    + by rewrite list_lookup_insert_ne.
  - case_decide as Hj; [subst j|].
    + by rewrite list_lookup_insert_eq.
    + by rewrite list_lookup_insert_ne.
Qed.

Lemma built_instances (w : world) (i : nat) (r k s q : pyval) :
  _instances (snd (built w i r k s q)) = _instances w
  /\ length (heap (snd (built w i r k s q))) = length (heap w)
  /\ boto3_rejects (snd (built w i r k s q)) = boto3_rejects w.
Proof.
  unfold built. destruct (boto3_rejects w r k s) as [e|]; cbn.
  - by rewrite length_alter.
  - by rewrite length_insert.
Qed.

Lemma built_existing_ok (w : world) (i : nat) (r k s q : pyval) :
  registry_ok w -> config_at w i = Some (r, k, s, q) ->
  registry_ok (snd (built w i r k s q))
  /\ extends w (snd (built w i r k s q))
  /\ forall j, config_at (snd (built w i r k s q)) j = config_at w j.
Proof.
  intros (Hnd & Hsome & Huniq) Hcfg.
  assert (Hlt : (i < length (heap w))%nat).
  { apply registered_in_heap. rewrite Hcfg. eauto. }
  assert (Hsame : forall j,
            config_at (snd (built w i r k s q)) j = config_at w j).
  { intros j. rewrite built_config by done. case_decide; [|done].
    subst j. by rewrite Hcfg. }
  destruct (built_instances w i r k s q) as (Hi & _ & _).
  split_and!; [|intros j Hj; by rewrite Hi, Hsame|done].
  unfold registry_ok, registry_unique. rewrite Hi. split_and!; [done|..].
  - intros j Hj. rewrite Hsame. by apply Hsome.
  - intros j1 j2 Hj1 Hj2. rewrite !Hsame. by apply Huniq.
Qed.

Lemma built_new_config (w : world) (r k s q : pyval) (j : nat) :
  config_at (snd (built (registered w) (length (heap w)) r k s q)) j
  = if decide (j = length (heap w)) then Some (r, k, s, q)
    else config_at w j.
Proof.
  rewrite built_config by (cbn; rewrite length_app; cbn; lia).
  case_decide; [done|]. apply registered_config.
Qed.

Lemma built_new_ok (w : world) (r k s q : pyval) :
  registry_ok w ->
  (forall i, i ∈ _instances w -> config_at w i <> Some (r, k, s, q)) ->
  registry_ok (snd (built (registered w) (length (heap w)) r k s q))
  /\ extends w (snd (built (registered w) (length (heap w)) r k s q)).
Proof.
  intros (Hnd & Hsome & Huniq) Hfresh.
  assert (Hold : forall i, i ∈ _instances w -> i <> length (heap w)).
  { intros i Hi. apply Hsome, registered_in_heap in Hi. lia. }
  destruct (built_instances (registered w) (length (heap w)) r k s q)
    as (Hi & _ & _). cbn [registered _instances] in Hi.
  unfold registry_ok, registry_unique, extends. rewrite Hi.
  split; [split_and!|].
  - apply NoDup_app. split_and!; [done| |apply NoDup_singleton].
    intros i Hin ->%list_elem_of_singleton. by apply (Hold _ Hin).
  - intros i. rewrite built_new_config.
    intros [Hin| ->%list_elem_of_singleton]%elem_of_app.
    + rewrite decide_False by auto. auto.
    + rewrite decide_True by done. eauto.
  - intros i j. rewrite !built_new_config.
    intros [Hin| ->%list_elem_of_singleton]%elem_of_app
           [Hjn| ->%list_elem_of_singleton]%elem_of_app.
    + rewrite !decide_False by auto. auto.
    + rewrite decide_False, decide_True by auto.
      intros Heq. by apply Hfresh in Hin.
    + rewrite decide_True, decide_False by auto.
      intros Heq. symmetry in Heq. by apply Hfresh in Hjn.
    + done.
  - intros i Hin. split.
    + apply elem_of_app. by left.
    + rewrite built_new_config. by rewrite decide_False by auto.
Qed.

Lemma built_outcome (w : world) (i : nat) (r k s q : pyval) :
  fst (built w i r k s q)
  = match boto3_rejects w r k s with
    | None => Return i
    | Some e => Raise e
    end.
Proof. unfold built. by destruct (boto3_rejects w r k s). Qed.

Lemma built_accepted (w : world) (i : nat) (r k s q : pyval) :
  (i < length (heap w))%nat ->
  accepted w r k s ->
  handle_at (snd (built w i r k s q)) i = Some (next_handle w)
  /\ trace (snd (built w i r k s q))
     = trace w ++ [Boto3Client (next_handle w) r k s]
  /\ next_handle (snd (built w i r k s q)) = S (next_handle w).
Proof.
  intros Hlt Hacc. red in Hacc. unfold built, handle_at. rewrite Hacc. cbn.
  by rewrite list_lookup_insert_eq.
Qed.

(** The constructor call, in a world whose registry is in order. *)
Lemma new_SQSClient_spec (w : world) (r k s q : pyval) :
  registry_ok w ->
  exists i w',
    new_SQSClient r k s q w
    = (match boto3_rejects w r k s with
       | None => Return i
       | Some e => Raise e
       end, w')
    /\ registry_ok w' /\ extends w w'
    /\ i ∈ _instances w'
    /\ config_at w' i = Some (r, k, s, q)
    /\ boto3_rejects w' = boto3_rejects w
    /\ (accepted w r k s ->
        handle_at w' i = Some (next_handle w)
        /\ trace w' = trace w ++ [Boto3Client (next_handle w) r k s]
        /\ next_handle w' = S (next_handle w))
    /\ (forall j, j ∈ _instances w -> config_at w j = Some (r, k, s, q) ->
        j = i).
Proof.
  intros Hok. pose proof Hok as (Hnd & Hsome & Huniq).
  destruct (new_SQSClient_cases w r k s q Hok)
    as [(i & Hin & Hcfg & Hrun)|[Hfresh Hrun]].
  - exists i, (snd (built w i r k s q)).
    assert (Hlt : (i < length (heap w))%nat).
    { apply registered_in_heap. rewrite Hcfg. eauto. }
    destruct (built_existing_ok w i r k s q Hok Hcfg) as (Hok' & Hext & Hsame).
    destruct (built_instances w i r k s q) as (Hi & _ & Henv).
    split_and!; [|done|done| | |done| |].
    + rewrite Hrun, <- (built_outcome w i r k s q).
      by destruct (built w i r k s q).
    + by rewrite Hi.
    + by rewrite Hsame.
    + by apply built_accepted.
    + intros j Hj Hcj. apply Huniq; [done..|congruence].
  - exists (length (heap w)),
           (snd (built (registered w) (length (heap w)) r k s q)).
    assert (Hlt : (length (heap w) < length (heap (registered w)))%nat).
    { cbn. rewrite length_app. cbn. lia. }
    destruct (built_new_ok w r k s q Hok Hfresh) as [Hok' Hext].
    destruct (built_instances (registered w) (length (heap w)) r k s q)
      as (Hi & _ & Henv).
    split_and!; [|done|done| | |done| |].
    + pose proof (built_outcome (registered w) (length (heap w)) r k s q)
        as Hout.
      cbn [registered boto3_rejects] in Hout. rewrite Hrun, <- Hout.
      by destruct (built _ (length (heap w)) r k s q).
    + rewrite Hi. cbn. apply elem_of_app. right.
      by apply list_elem_of_singleton.
    + rewrite built_new_config. by rewrite decide_True.
    + intros Hacc. by apply (built_accepted (registered w)).
    + intros j Hj Hcj. by apply Hfresh in Hj.
Qed.

Lemma build_cases (b : builder.SQSClientBuilder) (w : world) :
  builder.missing_fields b = []
  /\ builder.build b w
     = new_SQSClient (builder.region_name b) (builder.aws_access_key_id b)
         (builder.aws_secret_access_key b) (builder.queue_url b) w
  \/ builder.missing_fields b <> []
     /\ builder.build b w
        = (Raise (ValueError
                    ("Missing required SQS connection parameters: "
                     +:+ String.concat ", " (builder.missing_fields b))), w).
Proof.
  unfold builder.build. destruct (builder.missing_fields b); [left|right]; done.
Qed.

(** Every call keeps the registry in order, keeps what it holds, and
    leaves the environment alone. *)
Lemma after_ok (c : call) (w : world) :
  registry_ok w ->
  registry_ok (after c w) /\ extends w (after c w)
  /\ boto3_rejects (after c w) = boto3_rejects w.
Proof.
  intros Hok.
  assert (Hnew : forall r k s q,
    registry_ok (snd (new_SQSClient r k s q w))
    /\ extends w (snd (new_SQSClient r k s q w))
    /\ boto3_rejects (snd (new_SQSClient r k s q w)) = boto3_rejects w).
  { intros r k s q.
    destruct (new_SQSClient_spec w r k s q Hok)
      as (i & w' & -> & ? & ? & _ & _ & ? & _).
    done. }
  assert (Hkeeps : forall A (m : M A),
    keeps_registry m ->
    registry_ok (snd (m w)) /\ extends w (snd (m w))
    /\ boto3_rejects (snd (m w)) = boto3_rejects w).
  { intros A m Hm. split_and!;
      [by apply keeps_registry_ok | by apply keeps_extends | apply Hm]. }
  destruct c; cbn [after].
  - apply Hnew.
  - destruct (build_cases b w) as [[_ ->]|[_ ->]]; [apply Hnew|].
    split_and!; [done | apply extends_refl | done].
  - apply Hkeeps, keeps_enter.
  - apply Hkeeps, keeps_exit.
  - apply Hkeeps, keeps_send_message.
  - apply Hkeeps, keeps_read_events.
  - apply Hkeeps, keeps_delete_event.
  - apply Hkeeps, keeps_purge.
Qed.

Lemma reaches_ok (w w' : world) :
  registry_ok w -> reaches w w' ->
  registry_ok w' /\ extends w w' /\ boto3_rejects w' = boto3_rejects w.
Proof.
  intros Hok. induction 1 as [|w' c Hr (IHok & IHext & IHenv)].
  - split_and!; [done | apply extends_refl | done].
  - destruct (after_ok c w' IHok) as (Hok' & Hext' & Henv').
    split_and!; [done | by eapply extends_trans | congruence].
Qed.

Lemma reachable_ok (w : world) : reachable w -> registry_ok w.
Proof.
  intros Hr. by apply (reaches_ok (start (boto3_rejects w)) w (start_ok _)).
Qed.

(** ** Receiving: the claims about [read_events_with_retry] *)

(** After [n] polls that each fail transiently before the last allowed
    attempt, the loop is at attempt [retry_attempt + n], the client is
    still initialised, and there were [n] polls and [n] reconnects. *)
Lemma retry_loop_transients (t : transport) (self : nat)
    (region key secret url : pyval) (m mb vt wt : Z) (n : nat) :
  forall (fuel : nat) (a : Z) (w : world) (h : handle),
    bound w self region key secret url h ->
    (n <> 0%nat -> accepted w region key secret) ->
    a + Z.of_nat n <= m ->
    (n <= fuel)%nat ->
    transient_run t (polls_in (trace w)) n ->
    exists w1 evs h1,
      retry_loop fuel t self m mb vt wt a w
      = retry_loop (fuel - n) t self m mb vt wt (a + Z.of_nat n) w1
      /\ bound w1 self region key secret url h1
      /\ trace w1 = trace w ++ evs
      /\ polls_in evs = n /\ connects_in evs = n
      /\ next_handle w1 = (next_handle w + n)%nat
      /\ boto3_rejects w1 = boto3_rejects w
      /\ (n = 0%nat -> h1 = h).
Proof.
  induction n as [|n IH]; intros fuel a w h Hb Hacc Hle Hfuel Hrun.
  - exists w, [], h. rewrite Nat.sub_0_r, Z.add_0_r, app_nil_r.
    split_and!; auto.
  - destruct fuel as [|fuel]; [lia|].
    specialize (Hacc ltac:(lia)).
    destruct (Hrun 0%nat) as [msg Hmsg]; [lia|]. rewrite Nat.add_0_r in Hmsg.
    erewrite retry_loop_retry by (eassumption || lia).
    set (w0 := reconnected w self region key secret url h mb vt wt a msg).
    destruct (IH fuel (a + 1) w0 (next_handle w))
      as (w1 & evs & h1 & Hloop & Hb1 & Htr & Hp & Hc & Hnh & Henv & _).
    + apply reconnected_bound, Hb.
    + intros _. exact Hacc.
    + lia.
    + lia.
    + intros i Hi. unfold w0. rewrite reconnected_polls.
      destruct (Hrun (S i)) as [msg' Hmsg']; [lia|].
      exists msg'. rewrite <- Hmsg'. f_equal. lia.
    + exists w1, ([ReceiveMessage h url mb vt wt;
                   LogDebug ("WaiterError: " +:+ msg);
                   LogDebug ("Retry attempt: " +:+ pretty a);
                   Boto3Client (next_handle w) region key secret] ++ evs), h1.
      rewrite Hloop, Htr, polls_in_app, connects_in_app, Hp, Hc, Hnh.
      replace (a + 1 + Z.of_nat n) with (a + Z.of_nat (S n)) by lia.
      cbn [Nat.sub w0 reconnected trace next_handle].
      rewrite <- (assoc_L (++)).
      split_and!; auto; try lia; try done.
Qed.

(** C1. When the first poll of a receive call succeeds, the call returns
    the messages of that poll at once: the list under ['Messages'] when
    the response has that key, the empty list when it has not. The only
    thing the call did is that one poll; the client keeps its handle, and
    no handle was built. An empty list is returned like any other. *)
Theorem first_poll_success_returns_at_once (t : transport) (self : nat)
    (region key secret url : pyval) (h : handle)
    (max_retry_attempts max_batch visibility_timeout wait_time_seconds : Z)
    (w : world) (resp : response) :
  bound w self region key secret url h ->
  1 <= max_retry_attempts ->
  on_receive t (polls_in (trace w)) = inr resp ->
  let poll :=
    ReceiveMessage h url max_batch visibility_timeout wait_time_seconds in
  let w' := log_to w [poll] in
  read_events_with_retry t self max_retry_attempts max_batch
                         visibility_timeout wait_time_seconds w
  = (Return (Some (get_Messages resp)), w')
  /\ (forall messages, Messages resp = Some messages ->
      read_events_with_retry t self max_retry_attempts max_batch
                             visibility_timeout wait_time_seconds w
      = (Return (Some messages), w'))
  /\ (Messages resp = None ->
      read_events_with_retry t self max_retry_attempts max_batch
                             visibility_timeout wait_time_seconds w
      = (Return (Some []), w'))
  /\ polls_in [poll] = 1%nat
  /\ connects_in [poll] = 0%nat
  /\ bound w' self region key secret url h
  /\ next_handle w' = next_handle w.
Proof.
  intros Hb Hmax Hr poll w'.
  assert (Hrun : read_events_with_retry t self max_retry_attempts max_batch
                   visibility_timeout wait_time_seconds w
                 = (Return (Some (get_Messages resp)), w')).
  { unfold read_events_with_retry. by erewrite retry_loop_ok by eauto. }
  split_and!; try done.
  - intros messages Hm. rewrite Hrun. unfold get_Messages. by rewrite Hm.
  - intros Hm. rewrite Hrun. unfold get_Messages. by rewrite Hm.
Qed.

Lemma first_poll_success_returns_at_once_witness :
  read_events_with_retry delivering 0 3 10 60 10 sample_world
  = (Return (Some [sample_message]),
     log_to sample_world
            [ReceiveMessage 0%nat (PyStr "https://sqs.example/q") 10 60 10]).
Proof.
  refine (proj1 (proj2 (first_poll_success_returns_at_once delivering 0
                   (PyStr "eu-west-1") (PyStr "AKIAEXAMPLE") (PyStr "secret")
                   (PyStr "https://sqs.example/q") 0%nat 3 10 60 10
                   sample_world (Response (Some [sample_message])) _ _ _))
                [sample_message] _).
  - reflexivity.
  - lia.
  - reflexivity.
  - reflexivity.
Defined.



(** C3, on the code. With [max_retry_attempts = 1] and a poll that
    raises [WaiterError], the call polls once and rebuilds the handle once,
    before the test that ends the call, so the client is left holding the
    handle just built. But the exception it ends with is not the
    [HTTPClientError] its docstring announces: [raise HTTPClientError]
    calls the class with no [error] argument, and the call raises
    [KeyError('error')]. *)
Theorem single_attempt_raises_KeyError :
  exists w',
    read_events_with_retry down 0 1 10 60 10 sample_world
    = (Raise (KeyError "error"), w')
    /\ trace w'
       = trace sample_world
         ++ [ReceiveMessage 0%nat (PyStr "https://sqs.example/q") 10 60 10;
             LogDebug "WaiterError: timed out";
             LogDebug "Retry attempt: 1";
             Boto3Client 1%nat (PyStr "eu-west-1") (PyStr "AKIAEXAMPLE")
                         (PyStr "secret");
             LogError "Max retry attempts reached. Exiting."]
    /\ handle_at w' 0 = Some 1%nat.
Proof. eexists. split_and!; reflexivity. Qed.

(** C4. A poll that raises anything but [WaiterError] ends the call at
    once with that very exception, on whichever attempt it happens: after
    [n] transient failures ([n] below the budget) the failing poll is the
    last thing the call does. It is not retried, and no handle is built
    after it, so the call made [n + 1] polls and [n] reconnects, none of
    them for this failure. When there are reconnects ([n > 0]) they call
    [boto3.client] with the region and credentials of the client, which
    it accepts as it did when the client was built. *)
Theorem hard_failure_propagates (t : transport) (self : nat)
    (region key secret url : pyval) (h : handle)
    (max_retry_attempts max_batch visibility_timeout wait_time_seconds : Z)
    (w : world) (n : nat) (e : exn) :
  bound w self region key secret url h ->
  n = 0%nat \/ accepted w region key secret ->
  Z.of_nat n < max_retry_attempts ->
  transient_run t (polls_in (trace w)) n ->
  on_receive t (polls_in (trace w) + n)%nat = inl e ->
  is_WaiterError e = false ->
  exists w' evs h',
    read_events_with_retry t self max_retry_attempts max_batch
                           visibility_timeout wait_time_seconds w
    = (Raise e, w')
    /\ trace w'
       = trace w ++ evs ++
         [ReceiveMessage h' url max_batch visibility_timeout
                         wait_time_seconds]
    /\ polls_in evs = n
    /\ connects_in evs = n
    /\ bound w' self region key secret url h'
    /\ next_handle w' = (next_handle w + n)%nat
    /\ (n = 0%nat -> h' = h).
Proof.
  intros Hb Hacc Hn Hrun He Hhard. unfold read_events_with_retry.
  destruct (retry_loop_transients t self region key secret url
              max_retry_attempts max_batch visibility_timeout
              wait_time_seconds n (S (Z.to_nat max_retry_attempts)) 1 w h)
    as (w1 & evs & h1 & Hloop & Hb1 & Htr & Hp & Hc & Hnh & _ & Hh);
    [done | by destruct Hacc | lia | lia | done |].
  rewrite Hloop.
  replace (S (Z.to_nat max_retry_attempts) - n)%nat
    with (S (Z.to_nat max_retry_attempts - n)) by lia.
  erewrite retry_loop_hard; [|exact Hb1|lia| |done].
  - exists (log_to w1 [ReceiveMessage h1 url max_batch visibility_timeout
                                      wait_time_seconds]), evs, h1.
    split_and!; auto.
    cbn. by rewrite Htr, <- (assoc_L (++)).
  - by rewrite Htr, polls_in_app, Hp.
Qed.

Lemma hard_failure_propagates_witness :
  exists w' evs h',
    read_events_with_retry denied 0 3 10 60 10 sample_world
    = (Raise (ClientError "AccessDenied"), w')
    /\ trace w'
       = trace sample_world ++ evs ++
         [ReceiveMessage h' (PyStr "https://sqs.example/q") 10 60 10]
    /\ polls_in evs = 1%nat
    /\ connects_in evs = 1%nat.
Proof.
  destruct (hard_failure_propagates denied 0
              (PyStr "eu-west-1") (PyStr "AKIAEXAMPLE") (PyStr "secret")
              (PyStr "https://sqs.example/q") 0%nat 3 10 60 10
              sample_world 1 (ClientError "AccessDenied"))
    as (w' & evs & h' & Hrun & Htr & Hp & Hc & _).
  - reflexivity.
  - right. reflexivity.
  - lia.
  - intros i Hi. exists "timed out". destruct i; [reflexivity | lia].
  - reflexivity.
  - reflexivity.
  - exists w', evs, h'. split_and!; assumption.
Defined.

(** C5. For every budget [max_retry_attempts >= 1], every transport and
    every world, a receive call ends, with a list or with an exception
    (never with [None]), after at most [max_retry_attempts] polls and at
    most [max_retry_attempts] reconnects. *)
Theorem receive_ends_within_budget (t : transport) (self : nat)
    (max_retry_attempts max_batch visibility_timeout wait_time_seconds : Z)
    (w : world) :
  1 <= max_retry_attempts ->
  exists o w' evs,
    read_events_with_retry t self max_retry_attempts max_batch
                           visibility_timeout wait_time_seconds w = (o, w')
    /\ ((exists messages, o = Return (Some messages)) \/ (exists e, o = Raise e))
    /\ trace w' = trace w ++ evs
    /\ Z.of_nat (polls_in evs) <= max_retry_attempts
    /\ Z.of_nat (connects_in evs) <= max_retry_attempts.
Proof.
  intros Hmax. unfold read_events_with_retry.
  destruct (retry_loop_bounded t self max_retry_attempts max_batch
              visibility_timeout wait_time_seconds
              (S (Z.to_nat max_retry_attempts)) 1 w)
    as (o & w' & evs & Hrun & Hfuel & Htr & Hp & Hc & Hres); [lia|].
  exists o, w', evs. split_and!; [done| |done|lia|lia].
  destruct o as [[messages|]|e|].
  - left. by exists messages.
  - by destruct Hres.
  - right. by exists e.
  - done.
Qed.

Lemma receive_ends_within_budget_witness :
  exists o w' evs,
    read_events_with_retry down 0 2 10 60 10 sample_world = (o, w')
    /\ ((exists messages, o = Return (Some messages)) \/ (exists e, o = Raise e))
    /\ trace w' = trace sample_world ++ evs
    /\ Z.of_nat (polls_in evs) <= 2
    /\ Z.of_nat (connects_in evs) <= 2.
Proof.
  apply (receive_ends_within_budget down 0 2 10 60 10 sample_world). lia.
Defined.

(** C10. With [max_retry_attempts <= 0] the loop body is never entered:
    the call returns [None] and leaves the world as it was, so it has
    polled nothing, built no handle and raised nothing. *)
Theorem no_budget_returns_None (t : transport) (self : nat)
    (max_retry_attempts max_batch visibility_timeout wait_time_seconds : Z)
    (w : world) :
  max_retry_attempts <= 0 ->
  read_events_with_retry t self max_retry_attempts max_batch
                         visibility_timeout wait_time_seconds w
  = (Return None, w).
Proof.
  intros Hmax. unfold read_events_with_retry. apply retry_loop_done. lia.
Qed.

Lemma no_budget_returns_None_witness :
  read_events_with_retry flaky 0 0 10 60 10 sample_world
  = (Return None, sample_world).
Proof.
  apply (no_budget_returns_None flaky 0 0 10 60 10 sample_world). lia.
Defined.

(** ** Construction: the claims about the registry *)

(** C6. In every world a process can be in, a construction settles on
    one object, and returns it unless [boto3.client] refuses the region
    and credentials. Constructing with a configuration and later, after
    any further calls, with a second one settles on the same object when
    the two configurations agree on all four fields, and on different
    objects when they differ on any field. And in every such world no two
    distinct entries of [_instances] carry the same configuration. *)
Theorem same_config_same_instance (w wb : world)
    (r1 k1 s1 q1 r2 k2 s2 q2 : pyval) :
  reachable w ->
  reaches (snd (new_SQSClient r1 k1 s1 q1 w)) wb ->
  (exists i1 i2,
     fst (new_SQSClient r1 k1 s1 q1 w)
     = match boto3_rejects w r1 k1 s1 with
       | None => Return i1
       | Some e => Raise e
       end
     /\ fst (new_SQSClient r2 k2 s2 q2 wb)
        = match boto3_rejects w r2 k2 s2 with
          | None => Return i2
          | Some e => Raise e
          end
     /\ i1 ∈ _instances wb /\ config_at wb i1 = Some (r1, k1, s1, q1)
     /\ i2 ∈ _instances (snd (new_SQSClient r2 k2 s2 q2 wb))
     /\ config_at (snd (new_SQSClient r2 k2 s2 q2 wb)) i2
        = Some (r2, k2, s2, q2)
     /\ ((r1, k1, s1, q1) = (r2, k2, s2, q2) -> i1 = i2)
     /\ ((r1, k1, s1, q1) <> (r2, k2, s2, q2) -> i1 <> i2))
  /\ (forall i j c, i ∈ _instances w -> j ∈ _instances w ->
        config_at w i = Some c -> config_at w j = Some c -> i = j).
Proof.
  intros Hw Hwb. pose proof (reachable_ok w Hw) as Hok. split.
  - destruct (new_SQSClient_spec w r1 k1 s1 q1 Hok)
      as (i1 & wa & Hrun1 & Hoka & _ & Hin1 & Hcfg1 & Henva & _).
    rewrite Hrun1 in Hwb |- *. cbn [fst snd] in *.
    destruct (reaches_ok wa wb Hoka Hwb) as (Hokb & Hext & Henvb).
    destruct (Hext i1 Hin1) as [Hin1b Hcfg1b]. rewrite Hcfg1 in Hcfg1b.
    destruct (new_SQSClient_spec wb r2 k2 s2 q2 Hokb)
      as (i2 & wc & Hrun2 & _ & Hextc & Hin2 & Hcfg2 & _ & _ & Hfound).
    rewrite Hrun2. cbn [fst snd]. rewrite Henvb, Henva.
    exists i1, i2. split_and!; [done..| |].
    + intros Heq. apply Hfound; [done|]. by rewrite Hcfg1b, Heq.
    + intros Hne ->. destruct (Hextc i2 Hin1b) as [_ Hsame].
      rewrite Hcfg2, Hcfg1b in Hsame. congruence.
  - destruct Hok as (_ & _ & Huniq). intros i j c Hi Hj Hci Hcj.
    apply Huniq; [done..|congruence].
Qed.

Lemma same_config_same_instance_witness :
  (exists i1 i2,
     fst (new_SQSClient (PyStr "eu-west-1") (PyStr "AKIAEXAMPLE")
            (PyStr "secret") (PyStr "https://sqs.example/q") init_world)
     = Return i1
     /\ fst (new_SQSClient (PyStr "eu-west-1") (PyStr "AKIAEXAMPLE")
               (PyStr "secret") (PyStr "https://sqs.example/q") sample_world)
        = Return i2
     /\ i1 = i2).
Proof.
  destruct (same_config_same_instance init_world sample_world
              (PyStr "eu-west-1") (PyStr "AKIAEXAMPLE") (PyStr "secret")
              (PyStr "https://sqs.example/q")
              (PyStr "eu-west-1") (PyStr "AKIAEXAMPLE") (PyStr "secret")
              (PyStr "https://sqs.example/q"))
    as [(i1 & i2 & H1 & H2 & _ & _ & _ & _ & Hsame & _) _].
  - apply reaches_refl.
  - apply reaches_refl.
  - exists i1, i2. split_and!; [exact H1 | exact H2 | exact (Hsame eq_refl)].
Defined.

(** Whatever the registry holds, the constructor call ends by running
    [__init__], which builds a handle: two constructions in a row with one
    configuration return one object, holding a different handle after each
    of them. *)
Lemma construction_always_builds_a_handle (w : world) (r k s q : pyval) :
  reachable w ->
  accepted w r k s ->
  exists i w1 w2,
    new_SQSClient r k s q w = (Return i, w1)
    /\ new_SQSClient r k s q w1 = (Return i, w2)
    /\ handle_at w1 i = Some (next_handle w)
    /\ handle_at w2 i = Some (S (next_handle w))
    /\ trace w2 = trace w ++ [Boto3Client (next_handle w) r k s;
                              Boto3Client (S (next_handle w)) r k s].
Proof.
  intros Hw Hacc. pose proof (reachable_ok w Hw) as Hok.
  destruct (new_SQSClient_spec w r k s q Hok)
    as (i & w1 & Hrun1 & Hok1 & _ & Hin1 & Hcfg1 & Henv1 & Hacc1 & _).
  destruct (Hacc1 Hacc) as (Hh1 & Htr1 & Hnh1).
  assert (Hacc' : accepted w1 r k s) by (red; by rewrite Henv1).
  destruct (new_SQSClient_spec w1 r k s q Hok1)
    as (i' & w2 & Hrun2 & _ & _ & _ & _ & _ & Hacc2 & Hfound).
  destruct (Hacc2 Hacc') as (Hh2 & Htr2 & _).
  assert (i = i') as <- by (by apply Hfound).
  red in Hacc, Hacc'. rewrite Hacc in Hrun1. rewrite Hacc' in Hrun2.
  exists i, w1, w2. rewrite Hnh1 in Hh2, Htr2.
  split_and!; [done..|]. by rewrite Htr2, Htr1, <- (assoc_L (++)).
Qed.

(** C7, on the code. The second construction with the configuration of
    [sample_world]'s client returns that client (object 0), but not with
    the handle it had: [__init__] runs again and [boto3.client] is called a
    second time, so the client now holds handle 1 and handle 0 is dropped. *)
Theorem second_construction_rebuilds_handle :
  handle_at sample_world 0 = Some 0%nat
  /\ exists w2,
       new_SQSClient (PyStr "eu-west-1") (PyStr "AKIAEXAMPLE") (PyStr "secret")
                     (PyStr "https://sqs.example/q") sample_world
       = (Return 0%nat, w2)
       /\ _instances w2 = [0%nat]
       /\ handle_at w2 0 = Some 1%nat
       /\ trace w2
          = [Boto3Client 0%nat (PyStr "eu-west-1") (PyStr "AKIAEXAMPLE")
                         (PyStr "secret");
             Boto3Client 1%nat (PyStr "eu-west-1") (PyStr "AKIAEXAMPLE")
                         (PyStr "secret")].
Proof. split; [reflexivity|]. eexists. split_and!; reflexivity. Qed.

(** ** Validation: the builder and the constructor *)

Lemma missing_fields_spec (b : builder.SQSClientBuilder) (name : string) :
  name ∈ builder.missing_fields b
  <-> (name = "region_name" /\ truthy (builder.region_name b) = false)
      \/ (name = "aws_access_key_id"
          /\ truthy (builder.aws_access_key_id b) = false)
      \/ (name = "aws_secret_access_key"
          /\ truthy (builder.aws_secret_access_key b) = false)
      \/ (name = "queue_url" /\ truthy (builder.queue_url b) = false).
Proof.
  unfold builder.missing_fields.
  destruct (truthy (builder.region_name b)),
           (truthy (builder.aws_access_key_id b)),
           (truthy (builder.aws_secret_access_key b)),
           (truthy (builder.queue_url b)); cbn;
    rewrite ?elem_of_cons, elem_of_nil; intuition congruence.
Qed.

Lemma missing_fields_nil (b : builder.SQSClientBuilder) :
  builder.missing_fields b = []
  <-> truthy (builder.region_name b) = true
      /\ truthy (builder.aws_access_key_id b) = true
      /\ truthy (builder.aws_secret_access_key b) = true
      /\ truthy (builder.queue_url b) = true.
Proof.
  unfold builder.missing_fields.
  destruct (truthy (builder.region_name b)),
           (truthy (builder.aws_access_key_id b)),
           (truthy (builder.aws_secret_access_key b)),
           (truthy (builder.queue_url b)); cbn; intuition congruence.
Qed.

(** C8, as the code has it. The check is made by [SQSClientBuilder.build]:
    when a field is [None] or empty it raises [ValueError] with the
    message listing exactly those fields, without touching the world; when
    all four are non-empty it raises no such error and makes the
    constructor call with the four values, which returns the client
    unless [boto3.client] refuses the region and credentials. *)
Theorem build_checks_the_four_fields (b : builder.SQSClientBuilder)
    (w : world) :
  reachable w ->
  (forall name,
     name ∈ builder.missing_fields b
     <-> (name = "region_name" /\ truthy (builder.region_name b) = false)
         \/ (name = "aws_access_key_id"
             /\ truthy (builder.aws_access_key_id b) = false)
         \/ (name = "aws_secret_access_key"
             /\ truthy (builder.aws_secret_access_key b) = false)
         \/ (name = "queue_url" /\ truthy (builder.queue_url b) = false))
  /\ (builder.missing_fields b <> [] ->
      builder.build b w
      = (Raise (ValueError
                  ("Missing required SQS connection parameters: "
                   +:+ String.concat ", " (builder.missing_fields b))), w))
  /\ (truthy (builder.region_name b) = true ->
      truthy (builder.aws_access_key_id b) = true ->
      truthy (builder.aws_secret_access_key b) = true ->
      truthy (builder.queue_url b) = true ->
      builder.build b w
      = new_SQSClient (builder.region_name b) (builder.aws_access_key_id b)
          (builder.aws_secret_access_key b) (builder.queue_url b) w
      /\ exists i,
           fst (builder.build b w)
           = match boto3_rejects w (builder.region_name b)
                     (builder.aws_access_key_id b)
                     (builder.aws_secret_access_key b) with
             | None => Return i
             | Some e => Raise e
             end).
Proof.
  intros Hw. pose proof (reachable_ok w Hw) as Hok.
  split_and!.
  - apply missing_fields_spec.
  - intros Hmiss. by destruct (build_cases b w) as [[? _]|[_ ->]].
  - intros Hr Hk Hs Hq.
    assert (Hnil : builder.missing_fields b = [])
      by (by apply missing_fields_nil).
    destruct (build_cases b w) as [[_ Hb]|[? _]]; [|done].
    split; [done|]. rewrite Hb.
    destruct (new_SQSClient_spec w (builder.region_name b)
                (builder.aws_access_key_id b) (builder.aws_secret_access_key b)
                (builder.queue_url b) Hok) as (i & w' & -> & _).
    by exists i.
Qed.

Lemma build_checks_the_four_fields_witness :
  builder.build
    (builder.with_queue_url
       (builder.with_region builder.new_SQSClientBuilder (PyStr "eu-west-1"))
       (PyStr ""))
    init_world
  = (Raise (ValueError
              "Missing required SQS connection parameters: aws_access_key_id, aws_secret_access_key, queue_url"),
     init_world).
Proof.
  refine (proj1 (proj2 (build_checks_the_four_fields
                          (builder.with_queue_url
                             (builder.with_region builder.new_SQSClientBuilder
                                                  (PyStr "eu-west-1"))
                             (PyStr ""))
                          init_world _)) _).
  - apply reaches_refl.
  - discriminate.
Defined.

(** C8, as stated, fails on the constructor: with an empty queue endpoint
    [SQSClient(...)] returns a client and raises nothing. *)
Lemma constructor_accepts_empty_queue_url :
  truthy (PyStr "") = false
  /\ new_SQSClient (PyStr "eu-west-1") (PyStr "AKIAEXAMPLE") (PyStr "secret")
                   (PyStr "") init_world
     = (Return 0%nat,
        World [Obj (Some (PyStr "eu-west-1")) (Some (PyStr "AKIAEXAMPLE"))
                   (Some (PyStr "secret")) (Some (PyStr "")) (Some 0%nat)]
              [0%nat] 1%nat
              [Boto3Client 0%nat (PyStr "eu-west-1") (PyStr "AKIAEXAMPLE")
                           (PyStr "secret")]
              sample_env).
Proof. split; reflexivity. Qed.

(** ** Purge *)

(** X16. [purge] catches every exception of its body, so it always
    returns [None]: whatever the transport does and whatever state the
    object is in, the caller never sees an exception from it. *)
Lemma purge_never_raises (t : transport) (self : nat) (w : world) :
  fst (purge t self w) = Return tt.
Proof.
  unfold purge, try_except, bind, getattr, purge_queue, bind, emit, of_reply.
  destruct (heap w !! self ≫= sqs); cbn; [|done].
  destruct (heap w !! self ≫= queue_url); cbn; [|done].
  by destruct (on_purge t).
Qed.

(** C9, as the code has it. When the transport's purge operation raises,
    [purge] prints the failure and returns [None]: the caller sees no
    exception, and the only record of the failure is the printed line. *)
Theorem purge_prints_and_swallows (t : transport) (self : nat)
    (region key secret url : pyval) (h : handle) (w : world) (e : exn) :
  bound w self region key secret url h ->
  on_purge t = inl e ->
  purge t self w
  = (Return tt,
     log_to w [PurgeQueue h url;
               Print ("Failed to purge the queue: " +:+ str_exn e)]).
Proof.
  intros Hb He. red in Hb.
  unfold purge, try_except, bind, getattr, purge_queue, bind, emit, of_reply.
  rewrite Hb. cbn. rewrite He. cbn. rewrite Hb. cbn. unfold log_to.
  by rewrite <- (assoc_L (++)).
Qed.

Lemma purge_prints_and_swallows_witness :
  purge denied 0 sample_world
  = (Return tt,
     log_to sample_world
            [PurgeQueue 0%nat (PyStr "https://sqs.example/q");
             Print "Failed to purge the queue: AccessDenied"]).
Proof.
  apply (purge_prints_and_swallows denied 0
           (PyStr "eu-west-1") (PyStr "AKIAEXAMPLE") (PyStr "secret")
           (PyStr "https://sqs.example/q") 0%nat sample_world
           (ClientError "AccessDenied")).
  - reflexivity.
  - reflexivity.
Defined.

(** C9, as stated, fails: the transport refuses the purge, and the call
    returns normally. *)
Lemma purge_failure_is_not_raised :
  on_purge denied = inl (ClientError "AccessDenied")
  /\ fst (purge denied 0 sample_world) = Return tt.
Proof. split; reflexivity. Qed.

(** ** Sending and deleting *)

(** X1. A send that the transport refuses is logged and raised again as
    it is: one request, one error record, no retry and no new handle. *)
Theorem send_failure_is_logged_and_reraised (t : transport) (self : nat)
    (region key secret url : pyval) (h : handle) (w : world)
    (body : string) (e : exn) :
  bound w self region key secret url h ->
  on_send t = inl e ->
  send_message t self body w
  = (Raise e,
     log_to w [SendMessage h url body;
               LogError ("Failed to send message: " +:+ str_exn e)]).
Proof.
  intros Hb He. red in Hb.
  unfold send_message, try_except, bind, getattr, send_message_request, bind,
    emit, of_reply.
  rewrite Hb. cbn. rewrite Hb. cbn. rewrite He. cbn. unfold log_to.
  by rewrite <- (assoc_L (++)).
Qed.

Lemma send_failure_is_logged_and_reraised_witness :
  send_message denied 0 "{}" sample_world
  = (Raise (ClientError "AccessDenied"),
     log_to sample_world
            [SendMessage 0%nat (PyStr "https://sqs.example/q") "{}";
             LogError "Failed to send message: AccessDenied"]).
Proof.
  apply (send_failure_is_logged_and_reraised denied 0
           (PyStr "eu-west-1") (PyStr "AKIAEXAMPLE") (PyStr "secret")
           (PyStr "https://sqs.example/q") 0%nat sample_world "{}"
           (ClientError "AccessDenied")).
  - reflexivity.
  - reflexivity.
Defined.

(** X2. A send that the transport acknowledges returns the transport's
    response unchanged, after one request to the client's own queue with
    the body as given, and one debug record naming the message id. *)
Theorem send_returns_the_response (t : transport) (self : nat)
    (region key secret url : pyval) (h : handle) (w : world)
    (body : string) (resp : gmap string string) (id : string) :
  bound w self region key secret url h ->
  on_send t = inr resp ->
  resp !! "MessageId" = Some id ->
  send_message t self body w
  = (Return resp,
     log_to w [SendMessage h url body;
               LogDebug ("Message sent: ID = " +:+ id)]).
Proof.
  intros Hb Hs Hid. red in Hb.
  unfold send_message, try_except, bind, getattr, send_message_request, bind,
    emit, of_reply, getitem.
  rewrite Hb. cbn. rewrite Hb. cbn. rewrite Hs. cbn. rewrite Hid. cbn.
  unfold log_to. by rewrite <- (assoc_L (++)).
Qed.

Lemma send_returns_the_response_witness :
  send_message acking 0 "{}" sample_world
  = (Return {[ "MessageId" := "m-1" ]},
     log_to sample_world
            [SendMessage 0%nat (PyStr "https://sqs.example/q") "{}";
             LogDebug "Message sent: ID = m-1"]).
Proof.
  apply (send_returns_the_response acking 0
           (PyStr "eu-west-1") (PyStr "AKIAEXAMPLE") (PyStr "secret")
           (PyStr "https://sqs.example/q") 0%nat sample_world "{}"
           {[ "MessageId" := "m-1" ]} "m-1").
  - reflexivity.
  - reflexivity.
  - reflexivity.
Defined.

(** X3. Deleting an event that has no ['ReceiptHandle'] key raises
    [KeyError] before anything is asked of the transport. *)
Theorem delete_without_receipt_handle (t : transport) (self : nat)
    (region key secret url : pyval) (h : handle) (w : world)
    (event : gmap string string) :
  bound w self region key secret url h ->
  event !! "ReceiptHandle" = None ->
  delete_event_from_queue t self event w
  = (Raise (KeyError "ReceiptHandle"), w).
Proof.
  intros Hb He. red in Hb.
  unfold delete_event_from_queue, bind, getattr, getitem.
  rewrite Hb. cbn. rewrite Hb. cbn. by rewrite He.
Qed.

Lemma delete_without_receipt_handle_witness :
  delete_event_from_queue quiet 0 sample_message sample_world
  = (Raise (KeyError "ReceiptHandle"), sample_world).
Proof.
  apply (delete_without_receipt_handle quiet 0
           (PyStr "eu-west-1") (PyStr "AKIAEXAMPLE") (PyStr "secret")
           (PyStr "https://sqs.example/q") 0%nat sample_world sample_message).
  - reflexivity.
  - reflexivity.
Defined.

(** X4. Deleting an event issues exactly one delete request, for the
    event's receipt handle on the client's own queue; what the transport
    raises reaches the caller as it is, with no log record and no retry. *)
Theorem delete_is_one_request (t : transport) (self : nat)
    (region key secret url : pyval) (h : handle) (w : world)
    (event : gmap string string) (receipt : string) :
  bound w self region key secret url h ->
  event !! "ReceiptHandle" = Some receipt ->
  delete_event_from_queue t self event w
  = (match on_delete t with
     | inl e => Raise e
     | inr _ => Return tt
     end,
     log_to w [DeleteMessage h url receipt]).
Proof.
  intros Hb He. red in Hb.
  unfold delete_event_from_queue, bind, getattr, getitem, delete_message,
    bind, emit, of_reply.
  rewrite Hb. cbn. rewrite Hb. cbn. rewrite He. cbn.
  by destruct (on_delete t) as [e|[]].
Qed.

Lemma delete_is_one_request_witness :
  delete_event_from_queue denied 0 {[ "ReceiptHandle" := "rh-1" ]} sample_world
  = (Raise (ClientError "AccessDenied"),
     log_to sample_world
            [DeleteMessage 0%nat (PyStr "https://sqs.example/q") "rh-1"]).
Proof.
  apply (delete_is_one_request denied 0
           (PyStr "eu-west-1") (PyStr "AKIAEXAMPLE") (PyStr "secret")
           (PyStr "https://sqs.example/q") 0%nat sample_world
           {[ "ReceiptHandle" := "rh-1" ]} "rh-1").
  - reflexivity.
  - reflexivity.
Defined.

(** ** The client as a context manager *)





(** X6. Nothing stops a client from being used after [__exit__]: a
    receive call made then polls with the very handle that was closed,
    and returns the messages that poll delivers. *)
Theorem receive_after_exit_uses_closed_handle (t : transport) (self : nat)
    (region key secret url : pyval) (h : handle)
    (max_retry_attempts max_batch visibility_timeout wait_time_seconds : Z)
    (w : world) (resp : response) :
  bound w self region key secret url h ->
  1 <= max_retry_attempts ->
  on_receive t (polls_in (trace w)) = inr resp ->
  exists w1 w2,
    __exit__ self w = (Return tt, w1)
    /\ read_events_with_retry t self max_retry_attempts max_batch
                              visibility_timeout wait_time_seconds w1
       = (Return (Some (match Messages resp with
                        | Some messages => messages
                        | None => []
                        end)), w2)
    /\ trace w2
       = trace w ++ [Close h;
                     ReceiveMessage h url max_batch visibility_timeout
                                    wait_time_seconds].
Proof.
  intros Hb Hmax Hr.
  exists (log_to w [Close h]),
         (log_to (log_to w [Close h])
                 [ReceiveMessage h url max_batch visibility_timeout
                                 wait_time_seconds]).
  split_and!.
  - unfold __exit__, bind, getattr, emit. red in Hb. by rewrite Hb.
  - assert (Hr' : on_receive t (polls_in (trace (log_to w [Close h])))
                  = inr resp).
    { cbn [trace log_to]. rewrite polls_in_app.
      change (polls_in [Close h]) with 0%nat. by rewrite Nat.add_0_r. }
    unfold read_events_with_retry.
    erewrite retry_loop_ok by (eassumption || lia).
    unfold get_Messages. by destruct (Messages resp).
  - cbn. by rewrite <- (assoc_L (++)).
Qed.

Lemma receive_after_exit_uses_closed_handle_witness :
  exists w1 w2,
    __exit__ 0 sample_world = (Return tt, w1)
    /\ read_events_with_retry delivering 0 3 10 60 10 w1
       = (Return (Some [sample_message]), w2)
    /\ trace w2
       = trace sample_world
         ++ [Close 0%nat;
             ReceiveMessage 0%nat (PyStr "https://sqs.example/q") 10 60 10].
Proof.
  destruct (receive_after_exit_uses_closed_handle delivering 0
              (PyStr "eu-west-1") (PyStr "AKIAEXAMPLE") (PyStr "secret")
              (PyStr "https://sqs.example/q") 0%nat 3 10 60 10
              sample_world (Response (Some [sample_message])) eq_refl)
    as (w1 & w2 & H1 & H2 & H3).
  - lia.
  - reflexivity.
  - exists w1, w2. split_and!; [exact H1 | exact H2 | exact H3].
Defined.

(** ** More on the retry loop *)

Lemma retry_loop_stays_bound (t : transport) (self : nat)
    (region key secret url : pyval) (m mb vt wt : Z) (fuel : nat) :
  forall (a : Z) (w : world) (h : handle),
    bound w self region key secret url h ->
    exists o w' evs h',
      retry_loop fuel t self m mb vt wt a w = (o, w')
      /\ trace w' = trace w ++ evs
      /\ Forall (receive_event region key secret url mb vt wt) evs
      /\ bound w' self region key secret url h'
      /\ _instances w' = _instances w.
Proof.
  induction fuel as [|fuel IH]; intros a w h Hb.
  { exists OutOfFuel, w, [], h. rewrite app_nil_r. by split_and!. }
  destruct (Z.leb_spec a m) as [Hle|Hgt].
  2:{ exists (Return None), w, [], h. rewrite app_nil_r.
      rewrite retry_loop_done by done. by split_and!. }
  destruct (on_receive t (polls_in (trace w))) as [e|resp] eqn:Hr.
  - destruct (is_WaiterError e) eqn:He.
    + destruct e as [msg|x|x|x|x|x]; try done.
      destruct (boto3_rejects w region key secret) as [e'|] eqn:Henv.
      { erewrite retry_loop_rejected by eassumption.
        eexists _, _, [_; _; _], h.
        split_and!; [reflexivity|done| |exact Hb|done].
        repeat constructor. }
      destruct (Z.eq_dec a m) as [->|Hne].
      * erewrite retry_loop_exhausted by eassumption.
        eexists _, _, [_; _; _; _; _], (next_handle w).
        split_and!; [reflexivity| | | |done].
        -- cbn. by rewrite <- (assoc_L (++)).
        -- repeat constructor.
        -- unfold log_to, bound. cbn [heap]. apply reconnected_bound, Hb.
      * erewrite retry_loop_retry by (eassumption || lia).
        destruct (IH (a + 1)
                     (reconnected w self region key secret url h mb vt wt a msg)
                     (next_handle w))
          as (o & w' & evs & h' & Hrun & Htr & Hall & Hb' & Hi);
          [apply reconnected_bound, Hb|].
        exists o, w',
          ([ReceiveMessage h url mb vt wt;
            LogDebug ("WaiterError: " +:+ msg);
            LogDebug ("Retry attempt: " +:+ pretty a);
            Boto3Client (next_handle w) region key secret] ++ evs), h'.
        split_and!; [done| | |done|done].
        -- rewrite Htr. cbn [reconnected trace]. by rewrite <- (assoc_L (++)).
        -- apply Forall_app. split; [repeat constructor | done].
    + erewrite retry_loop_hard by eassumption.
      eexists _, _, [_], h. split_and!; [reflexivity|done| |exact Hb|done].
      repeat constructor.
  - erewrite retry_loop_ok by eassumption.
    eexists _, _, [_], h. split_and!; [reflexivity|done| |exact Hb|done].
    repeat constructor.
Qed.

(** X7. Whatever the transport does and however the call ends, a receive
    call on an initialised client only polls the client's own queue, with
    the batch size and timeouts it was given, and only builds handles with
    the client's own region and credentials. It sends, deletes, purges,
    closes and prints nothing, and it leaves the client initialised with
    the same configuration and the registry as it was. *)
Theorem receive_stays_on_its_queue (t : transport) (self : nat)
    (region key secret url : pyval) (h : handle)
    (max_retry_attempts max_batch visibility_timeout wait_time_seconds : Z)
    (w : world) :
  bound w self region key secret url h ->
  exists o w' evs h',
    read_events_with_retry t self max_retry_attempts max_batch
                           visibility_timeout wait_time_seconds w = (o, w')
    /\ trace w' = trace w ++ evs
    /\ Forall (receive_event region key secret url max_batch
                             visibility_timeout wait_time_seconds) evs
    /\ bound w' self region key secret url h'
    /\ _instances w' = _instances w.
Proof. intros Hb. by eapply retry_loop_stays_bound. Qed.

Lemma receive_stays_on_its_queue_witness :
  exists o w' evs h',
    read_events_with_retry flaky 0 3 10 60 10 sample_world = (o, w')
    /\ trace w' = trace sample_world ++ evs
    /\ Forall (receive_event (PyStr "eu-west-1") (PyStr "AKIAEXAMPLE")
                 (PyStr "secret") (PyStr "https://sqs.example/q") 10 60 10) evs
    /\ bound w' 0 (PyStr "eu-west-1") (PyStr "AKIAEXAMPLE") (PyStr "secret")
             (PyStr "https://sqs.example/q") h'
    /\ _instances w' = _instances sample_world.
Proof.
  apply (receive_stays_on_its_queue flaky 0
           (PyStr "eu-west-1") (PyStr "AKIAEXAMPLE") (PyStr "secret")
           (PyStr "https://sqs.example/q") 0%nat 3 10 60 10 sample_world).
  reflexivity.
Defined.

(** X8. For any budget [max_retry_attempts >= 1], when every poll of the
    call raises [WaiterError] the call ends after exactly
    [max_retry_attempts] polls and as many handle builds, the last of them
    after the last poll, and the client holds the last handle built. The
    exception it ends with is the [KeyError('error')] that the bare
    [raise HTTPClientError] produces. The reconnects call [boto3.client]
    with the region and credentials of the client, which it accepts as it
    did when the client was built. *)
Theorem all_polls_failing_exhausts_the_budget (t : transport) (self : nat)
    (region key secret url : pyval) (h : handle)
    (max_retry_attempts max_batch visibility_timeout wait_time_seconds : Z)
    (w : world) :
  bound w self region key secret url h ->
  accepted w region key secret ->
  1 <= max_retry_attempts ->
  transient_run t (polls_in (trace w)) (Z.to_nat max_retry_attempts) ->
  exists w' evs,
    read_events_with_retry t self max_retry_attempts max_batch
                           visibility_timeout wait_time_seconds w
    = (Raise (KeyError "error"), w')
    /\ trace w' = trace w ++ evs
    /\ polls_in evs = Z.to_nat max_retry_attempts
    /\ connects_in evs = Z.to_nat max_retry_attempts
    /\ bound w' self region key secret url
             (next_handle w + Z.to_nat max_retry_attempts - 1)%nat
    /\ next_handle w' = (next_handle w + Z.to_nat max_retry_attempts)%nat.
Proof.
  intros Hb Hacc Hmax Hrun. unfold read_events_with_retry.
  set (n := (Z.to_nat max_retry_attempts - 1)%nat).
  destruct (retry_loop_transients t self region key secret url
              max_retry_attempts max_batch visibility_timeout
              wait_time_seconds n (S (Z.to_nat max_retry_attempts)) 1 w h)
    as (w1 & evs & h1 & Hloop & Hb1 & Htr & Hp & Hc & Hnh & Henv & _);
    [done | done | lia | lia | |].
  { intros i Hi. apply Hrun. lia. }
  rewrite Hloop.
  replace (S (Z.to_nat max_retry_attempts) - n)%nat with 2%nat by lia.
  replace (1 + Z.of_nat n) with max_retry_attempts by lia.
  destruct (Hrun n) as [msg Hmsg]; [lia|].
  erewrite retry_loop_exhausted;
    [|exact Hb1|red; by rewrite Henv|by rewrite Htr, polls_in_app, Hp].
  eexists _, (evs ++ [_; _; _; _; _]). split; [reflexivity|].
  rewrite polls_in_app, connects_in_app, Hp, Hc.
  cbn [log_to reconnected trace next_handle]. rewrite Htr, Hnh.
  split_and!.
  - by rewrite <- !(assoc_L (++)).
  - change (polls_in [_; _; _; _; _]) with 1%nat. lia.
  - change (connects_in [_; _; _; _; _]) with 1%nat. lia.
  - replace (next_handle w + Z.to_nat max_retry_attempts - 1)%nat
      with (next_handle w1) by lia.
    unfold bound. cbn [heap]. apply list_lookup_insert_eq.
    by eapply lookup_lt_Some.
  - lia.
Qed.

Lemma all_polls_failing_exhausts_the_budget_witness :
  exists w' evs,
    read_events_with_retry down 0 4 10 60 10 sample_world
    = (Raise (KeyError "error"), w')
    /\ trace w' = trace sample_world ++ evs
    /\ polls_in evs = 4%nat
    /\ connects_in evs = 4%nat.
Proof.
  destruct (all_polls_failing_exhausts_the_budget down 0
              (PyStr "eu-west-1") (PyStr "AKIAEXAMPLE") (PyStr "secret")
              (PyStr "https://sqs.example/q") 0%nat 4 10 60 10 sample_world)
    as (w' & evs & Hrun & Htr & Hp & Hc & _).
  - reflexivity.
  - reflexivity.
  - lia.
  - intros i _. by exists "timed out".
  - exists w', evs. split_and!; assumption.
Defined.



(** ** More on the builder and the registry *)

(** X10. The names [build] reports come in the fixed order region, access
    key, secret key, queue URL, each at most once. *)
Theorem missing_fields_in_order (b : builder.SQSClientBuilder) :
  sublist (builder.missing_fields b) field_names
  /\ NoDup (builder.missing_fields b).
Proof.
  assert (Hnd : NoDup field_names).
  { by apply (bool_decide_unpack _). }
  assert (Hsub : sublist (builder.missing_fields b) field_names).
  { unfold builder.missing_fields, field_names.
    destruct (truthy (builder.region_name b)),
             (truthy (builder.aws_access_key_id b)),
             (truthy (builder.aws_secret_access_key b)),
             (truthy (builder.queue_url b)); cbn;
      repeat first [apply sublist_nil | apply sublist_skip
                   | apply sublist_cons]. }
  split; [done|]. by eapply sublist_NoDup.
Qed.

(** X11. A builder given, through its three setters, four non-empty
    values whose region and credentials [boto3.client] accepts builds a
    client bound to exactly those values, holding a handle built for this
    call. *)
Theorem builder_round_trip (region key secret url : pyval) (w : world) :
  reachable w ->
  accepted w region key secret ->
  truthy region = true -> truthy key = true ->
  truthy secret = true -> truthy url = true ->
  exists i w',
    builder.build
      (builder.with_queue_url
         (builder.with_aws_credentials
            (builder.with_region builder.new_SQSClientBuilder region)
            key secret)
         url) w
    = (Return i, w')
    /\ i ∈ _instances w'
    /\ config_at w' i = Some (region, key, secret, url)
    /\ handle_at w' i = Some (next_handle w).
Proof.
  intros Hw Hacc Hr Hk Hs Hq. pose proof (reachable_ok w Hw) as Hok.
  set (b := builder.with_queue_url _ _).
  assert (Hnil : builder.missing_fields b = []).
  { apply missing_fields_nil. by split_and!. }
  destruct (build_cases b w) as [[_ ->]|[? _]]; [|done].
  destruct (new_SQSClient_spec w region key secret url Hok)
    as (i & w' & Hrun & _ & _ & Hin & Hcfg & _ & Hh & _).
  destruct (Hh Hacc) as (Hh' & _). red in Hacc. rewrite Hacc in Hrun.
  by exists i, w'.
Qed.

Lemma builder_round_trip_witness :
  exists i w',
    builder.build
      (builder.with_queue_url
         (builder.with_aws_credentials
            (builder.with_region builder.new_SQSClientBuilder
                                 (PyStr "eu-west-1"))
            (PyStr "AKIAEXAMPLE") (PyStr "secret"))
         (PyStr "https://sqs.example/q")) init_world
    = (Return i, w')
    /\ i ∈ _instances w'
    /\ config_at w' i
       = Some (PyStr "eu-west-1", PyStr "AKIAEXAMPLE", PyStr "secret",
               PyStr "https://sqs.example/q")
    /\ handle_at w' i = Some (next_handle init_world).
Proof.
  apply (builder_round_trip (PyStr "eu-west-1") (PyStr "AKIAEXAMPLE")
           (PyStr "secret") (PyStr "https://sqs.example/q") init_world).
  - apply reaches_refl.
  - reflexivity.
  - reflexivity.
  - reflexivity.
  - reflexivity.
  - reflexivity.
Defined.

(** X12. Building twice from one complete builder gives one client: the
    second [build] settles on the object of the first and registers
    nothing. Both return that object when [boto3.client] accepts the
    region and credentials, and both raise its exception when it does
    not. *)
Theorem build_twice_one_client (b : builder.SQSClientBuilder) (w : world) :
  reachable w ->
  builder.missing_fields b = [] ->
  exists i w1 w2,
    let outcome :=
      match boto3_rejects w (builder.region_name b)
              (builder.aws_access_key_id b)
              (builder.aws_secret_access_key b) with
      | None => Return i
      | Some e => Raise e
      end in
    builder.build b w = (outcome, w1)
    /\ builder.build b w1 = (outcome, w2)
    /\ i ∈ _instances w1
    /\ config_at w1 i
       = Some (builder.region_name b, builder.aws_access_key_id b,
               builder.aws_secret_access_key b, builder.queue_url b)
    /\ _instances w2 = _instances w1
    /\ length (heap w2) = length (heap w1).
Proof.
  intros Hw Hnil. pose proof (reachable_ok w Hw) as Hok.
  destruct (build_cases b w) as [[_ Hb1]|[? _]]; [|done].
  destruct (new_SQSClient_spec w (builder.region_name b)
              (builder.aws_access_key_id b) (builder.aws_secret_access_key b)
              (builder.queue_url b) Hok)
    as (i & w1 & Hrun1 & Hok1 & _ & Hin1 & Hcfg1 & Henv1 & _).
  destruct (build_cases b w1) as [[_ Hb2]|[? _]]; [|done].
  destruct (new_SQSClient_cases w1 (builder.region_name b)
              (builder.aws_access_key_id b) (builder.aws_secret_access_key b)
              (builder.queue_url b) Hok1)
    as [(j & Hj & Hcj & Hrun2)|[Hfresh _]].
  - assert (j = i) as ->.
    { destruct Hok1 as (_ & _ & Huniq). apply Huniq; [done..|congruence]. }
    exists i, w1, (snd (built w1 i (builder.region_name b)
                          (builder.aws_access_key_id b)
                          (builder.aws_secret_access_key b)
                          (builder.queue_url b))).
    destruct (built_instances w1 i (builder.region_name b)
                (builder.aws_access_key_id b)
                (builder.aws_secret_access_key b) (builder.queue_url b))
      as (Hi & Hlen & _).
    cbn zeta. rewrite Hb1, Hb2, Hrun1, Hrun2. split_and!; [done| |done..].
    rewrite <- Henv1.
    rewrite <- (built_outcome w1 i (builder.region_name b)
                  (builder.aws_access_key_id b)
                  (builder.aws_secret_access_key b) (builder.queue_url b)).
    by destruct (built w1 i _ _ _ _).
  - by apply Hfresh in Hin1.
Qed.

Lemma build_twice_one_client_witness :
  exists i w1 w2,
    builder.build (builder.Builder (PyStr "r") (PyStr "k") (PyStr "s")
                                   (PyStr "q")) init_world
    = (Return i, w1)
    /\ builder.build (builder.Builder (PyStr "r") (PyStr "k") (PyStr "s")
                                      (PyStr "q")) w1
       = (Return i, w2)
    /\ _instances w2 = _instances w1
    /\ length (heap w2) = length (heap w1).
Proof.
  destruct (build_twice_one_client
              (builder.Builder (PyStr "r") (PyStr "k") (PyStr "s") (PyStr "q"))
              init_world)
    as (i & w1 & w2 & H1 & H2 & _ & _ & H3 & H4).
  - apply reaches_refl.
  - reflexivity.
  - exists i, w1, w2. split_and!; [exact H1 | exact H2 | exact H3 | exact H4].
Defined.

(** X13. Nothing is ever taken out of the registry: through any sequence
    of calls, an instance once registered stays registered, with the
    configuration it was built with. *)
Theorem registry_never_evicts (w w' : world) (i : nat) (c : config) :
  reachable w ->
  reaches w w' ->
  i ∈ _instances w ->
  config_at w i = Some c ->
  i ∈ _instances w' /\ config_at w' i = Some c.
Proof.
  intros Hw Hr Hi Hc.
  destruct (reaches_ok w w' (reachable_ok w Hw) Hr) as (_ & Hext & _).
  destruct (Hext i Hi) as [Hi' Hc']. split; [done | congruence].
Qed.

Lemma registry_never_evicts_witness :
  0%nat ∈ _instances
          (after (CallPurge denied 0) (after (CallExit 0) sample_world))
  /\ config_at (after (CallPurge denied 0) (after (CallExit 0) sample_world))
               0
     = Some (PyStr "eu-west-1", PyStr "AKIAEXAMPLE", PyStr "secret",
             PyStr "https://sqs.example/q").
Proof.
  apply (registry_never_evicts sample_world
           (after (CallPurge denied 0) (after (CallExit 0) sample_world))
           0%nat
           (PyStr "eu-west-1", PyStr "AKIAEXAMPLE", PyStr "secret",
            PyStr "https://sqs.example/q")).
  - apply (reaches_step init_world init_world
             (CallSQSClient (PyStr "eu-west-1") (PyStr "AKIAEXAMPLE")
                            (PyStr "secret") (PyStr "https://sqs.example/q"))).
    apply reaches_refl.
  - apply reaches_step, reaches_step, reaches_refl.
  - apply list_elem_of_In. left. reflexivity.
  - reflexivity.
Defined.

(** X14. A construction registers at most one object: none when the
    registry has an instance with the requested configuration, and
    otherwise exactly one, appended at the end of [_instances]. *)
Theorem construction_registers_at_most_once (w : world)
    (region key secret url : pyval) :
  reachable w ->
  let w' := snd (new_SQSClient region key secret url w) in
  ((exists i, i ∈ _instances w
              /\ config_at w i = Some (region, key, secret, url))
   /\ _instances w' = _instances w
   /\ length (heap w') = length (heap w))
  \/ ((forall i, i ∈ _instances w ->
         config_at w i <> Some (region, key, secret, url))
      /\ _instances w' = _instances w ++ [length (heap w)]
      /\ length (heap w') = S (length (heap w))).
Proof.
  intros Hw w'. subst w'.
  destruct (new_SQSClient_cases w region key secret url (reachable_ok w Hw))
    as [(i & Hi & Hc & ->)|[Hfresh ->]]; [left|right].
  - destruct (built_instances w i region key secret url) as (Hin & Hlen & _).
    split_and!; [by exists i|done..].
  - destruct (built_instances (registered w) (length (heap w))
                region key secret url) as (Hin & Hlen & _).
    split_and!; [done..|]. rewrite Hlen. cbn. rewrite length_app. cbn. lia.
Qed.

Lemma construction_registers_at_most_once_witness :
  _instances
    (snd (new_SQSClient (PyStr "eu-west-1") (PyStr "AKIAEXAMPLE")
            (PyStr "secret") (PyStr "https://sqs.example/other") sample_world))
  = [0%nat; 1%nat].
Proof.
  destruct (construction_registers_at_most_once sample_world
              (PyStr "eu-west-1") (PyStr "AKIAEXAMPLE") (PyStr "secret")
              (PyStr "https://sqs.example/other"))
    as [((i & Hi & Hc) & _)|(_ & Hreg & _)].
  - apply (reaches_step init_world init_world
             (CallSQSClient (PyStr "eu-west-1") (PyStr "AKIAEXAMPLE")
                            (PyStr "secret") (PyStr "https://sqs.example/q"))).
    apply reaches_refl.
  - reflexivity.
  - exact Hreg.
Defined.

(** X15. Only construction touches the registry: sending, receiving,
    deleting, purging, entering and leaving a [with] block leave
    [_instances] and the configuration of every object as they were,
    whatever the transport does and whether the call returns or raises. *)
Theorem only_construction_changes_registry (c : call) (w : world) :
  is_constructor c = false ->
  _instances (after c w) = _instances w
  /\ forall i, config_at (after c w) i = config_at w i.
Proof.
  assert (Hkeeps : forall A (m : M A),
    keeps_registry m ->
    _instances (snd (m w)) = _instances w
    /\ forall i, config_at (snd (m w)) i = config_at w i).
  { intros A m Hm. by destruct (Hm w) as (? & ? & _). }
  destruct c; cbn [is_constructor after]; intros Hc; try done.
  - apply Hkeeps, keeps_enter.
  - apply Hkeeps, keeps_exit.
  - apply Hkeeps, keeps_send_message.
  - apply Hkeeps, keeps_read_events.
  - apply Hkeeps, keeps_delete_event.
  - apply Hkeeps, keeps_purge.
Qed.

Lemma only_construction_changes_registry_witness :
  _instances (after (CallReadEvents down 0 2 10 60 10) sample_world)
  = _instances sample_world
  /\ forall i,
       config_at (after (CallReadEvents down 0 2 10 60 10) sample_world) i
       = config_at sample_world i.
Proof.
  apply (only_construction_changes_registry
           (CallReadEvents down 0 2 10 60 10) sample_world).
  reflexivity.
Defined.

(** X17. A purge makes exactly one purge request, on the client's own
    queue, and prints exactly one line: the confirmation when the
    transport accepts, the failure with the error text when it refuses. It
    builds no handle and retries nothing. *)
Theorem purge_is_one_request (t : transport) (self : nat)
    (region key secret url : pyval) (h : handle) (w : world) :
  bound w self region key secret url h ->
  purge t self w
  = (Return tt,
     log_to w [PurgeQueue h url;
               Print (match on_purge t with
                      | inl e => "Failed to purge the queue: " +:+ str_exn e
                      | inr _ => "All messages have been purged from the queue."
                      end)]).
Proof.
  intros Hb. red in Hb.
  unfold purge, try_except, bind, getattr, purge_queue, bind, emit, of_reply.
  rewrite Hb. cbn. destruct (on_purge t) as [e|[]]; cbn; rewrite Hb; cbn;
    unfold log_to; by rewrite <- (assoc_L (++)).
Qed.

Lemma purge_is_one_request_witness :
  purge quiet 0 sample_world
  = (Return tt,
     log_to sample_world
            [PurgeQueue 0%nat (PyStr "https://sqs.example/q");
             Print "All messages have been purged from the queue."]).
Proof.
  apply (purge_is_one_request quiet 0
           (PyStr "eu-west-1") (PyStr "AKIAEXAMPLE") (PyStr "secret")
           (PyStr "https://sqs.example/q") 0%nat sample_world).
  reflexivity.
Defined.

(** ** Handles are built from accepted arguments *)

Create HintDb handles.

Lemma handles_ret {A} (a : A) : keeps_handles (ret a).
Proof. intros w Hw. exact Hw. Qed.

Lemma handles_raise {A} (e : exn) : keeps_handles (@raise A e).
Proof. intros w Hw. exact Hw. Qed.

Lemma handles_out_of_fuel {A} : keeps_handles (@out_of_fuel A).
Proof. intros w Hw. exact Hw. Qed.

Lemma handles_emit (ev : event) : keeps_handles (emit ev).
Proof. intros w Hw. exact Hw. Qed.

Lemma handles_getattr {A} (self : nat) (name : string)
    (proj : SQSClient -> option A) :
  keeps_handles (getattr self name proj).
Proof.
  intros w Hw. unfold getattr.
  destruct (heap w !! self ≫= proj); exact Hw.
Qed.

Lemma handles_of_reply {A} (r : reply A) : keeps_handles (of_reply r).
Proof. destruct r; apply handles_raise || apply handles_ret. Qed.

Lemma handles_getitem (d : gmap string string) (key : string) :
  keeps_handles (getitem d key).
Proof.
  unfold getitem. destruct (d !! key); apply handles_ret || apply handles_raise.
Qed.

Lemma handles_bind {A B} (m : M A) (f : A -> M B) :
  keeps_handles m -> (forall a, keeps_handles (f a)) ->
  keeps_handles (bind m f).
Proof.
  intros Hm Hf w Hw. unfold bind. specialize (Hm w Hw).
  destruct (m w) as [[a| |] w1]; cbn in *; auto. by apply Hf.
Qed.

Lemma handles_try_except {A} (m : M A) (h : exn -> option (M A)) :
  keeps_handles m -> (forall e k, h e = Some k -> keeps_handles k) ->
  keeps_handles (try_except m h).
Proof.
  intros Hm Hh w Hw. unfold try_except. specialize (Hm w Hw).
  destruct (m w) as [[a|e|] w1]; cbn in *; auto.
  destruct (h e) as [k|] eqn:He; cbn; auto. by apply (Hh e k He).
Qed.

Lemma handles_receive_message (t : transport) (h : handle) (url : pyval)
    (mb vt wt : Z) :
  keeps_handles (receive_message t h url mb vt wt).
Proof.
  intros w Hw. unfold receive_message, bind, emit. cbn.
  destruct (on_receive t _); exact Hw.
Qed.

(** [_init_client] assigns [self.sqs] only after [boto3.client] accepted
    the region and credentials it read from [self]. *)
Lemma handles_init_client (self : nat) : keeps_handles (_init_client self).
Proof.
  intros w Hw.
  unfold _init_client, bind, getattr, boto3_client, update.
  destruct (heap w !! self) as [o|] eqn:Ho; cbn; [|exact Hw].
  destruct (region_name o) as [r|] eqn:Hr; cbn; [|exact Hw].
  rewrite Ho. cbn.
  destruct (aws_access_key_id o) as [k|] eqn:Hk; cbn; [|exact Hw].
  rewrite Ho. cbn.
  destruct (aws_secret_access_key o) as [s|] eqn:Hs; cbn; [|exact Hw].
  destruct (boto3_rejects w r k s) as [e|] eqn:Henv; cbn; [exact Hw|].
  intros i o' h. cbn. rewrite list_lookup_alter.
  case_decide as Hi; [subst i|by apply Hw].
  rewrite Ho. cbn. intros [= <-] _. cbn. by exists r, k, s.
Qed.

#[local] Hint Resolve handles_ret handles_raise handles_out_of_fuel
  handles_emit handles_getattr handles_of_reply handles_getitem
  handles_receive_message handles_init_client : handles.

#[local] Ltac handles_step :=
  first
    [ solve [auto with handles]
    | apply handles_bind; [|intros ?]
    | apply handles_try_except; [|intros ? ? ?] ].

Lemma handles_try_receive (t : transport) (self : nat) (m mb vt wt a : Z) :
  keeps_handles (try_receive t self m mb vt wt a).
Proof.
  unfold try_receive, raise_HTTPClientError. repeat handles_step.
  destruct (is_WaiterError _); simplify_eq. repeat handles_step.
  destruct (a =? m); repeat handles_step.
Qed.

Lemma handles_retry_loop (t : transport) (self : nat) (m mb vt wt : Z)
    (fuel : nat) :
  forall a, keeps_handles (retry_loop fuel t self m mb vt wt a).
Proof.
  induction fuel as [|fuel IH]; intros a; cbn [retry_loop]; [handles_step|].
  destruct (a <=? m); [|handles_step].
  apply handles_bind; [apply handles_try_receive|].
  intros [msgs|]; [handles_step | apply IH].
Qed.

Lemma handles_registered (w : world) :
  handles_ok w -> handles_ok (registered w).
Proof.
  intros Hw i o h. unfold registered. cbn.
  intros [Hi|[_ Hi]]%lookup_app_Some; [by apply (Hw i)|].
  destruct (i - length (heap w))%nat; [|done]. by simplify_eq/=.
Qed.

(** [__init__] keeps it so on an object that has the configuration
    already, and on one that holds no handle. *)
Lemma handles_built (w : world) (i : nat) (r k s q : pyval) :
  handles_ok w ->
  config_at w i = Some (r, k, s, q) \/ handle_at w i = None ->
  handles_ok (snd (built w i r k s q)).
Proof.
  intros Hw Hi j o h. unfold built.
  destruct (boto3_rejects w r k s) as [e|] eqn:Henv; cbn.
  - rewrite list_lookup_alter. case_decide as Hj; [subst j|by apply Hw].
    destruct (heap w !! i) as [o0|] eqn:Ho; [|done]. cbn.
    intros [= <-]. cbn. intros Hh.
    destruct (Hw i o0 h Ho Hh) as (r0 & k0 & s0 & Hr0 & Hk0 & Hs0 & Hacc).
    destruct Hi as [Hcfg|Hnone].
    + unfold config_at, config_of in Hcfg. rewrite Ho in Hcfg. cbn in Hcfg.
      rewrite Hr0, Hk0, Hs0 in Hcfg. cbn in Hcfg.
      destruct (queue_url o0); simplify_eq/=. by exists r, k, s.
    + unfold handle_at in Hnone. rewrite Ho in Hnone. cbn in Hnone. congruence.
  - rewrite list_lookup_insert. case_decide as Hj; [|by apply Hw].
    destruct Hj as [-> _]. intros [= <-] _. cbn. by exists r, k, s.
Qed.

Lemma handles_new_SQSClient (w : world) (r k s q : pyval) :
  registry_ok w -> handles_ok w ->
  handles_ok (snd (new_SQSClient r k s q w)).
Proof.
  intros Hok Hw.
  destruct (new_SQSClient_cases w r k s q Hok)
    as [(i & Hin & Hcfg & ->)|[Hfresh ->]].
  - apply handles_built; [done|by left].
  - apply handles_built; [by apply handles_registered|]. right.
    unfold handle_at, registered. cbn. by rewrite list_lookup_middle.
Qed.

Lemma handles_enter (self : nat) : keeps_handles (__enter__ self).
Proof. unfold __enter__. repeat handles_step. Qed.

Lemma handles_exit (self : nat) : keeps_handles (__exit__ self).
Proof. unfold __exit__. repeat handles_step. Qed.

Lemma handles_send_message (t : transport) (self : nat) (body : string) :
  keeps_handles (send_message t self body).
Proof.
  unfold send_message, send_message_request. repeat handles_step.
  simplify_eq. repeat handles_step.
Qed.

Lemma handles_delete_event (t : transport) (self : nat)
    (event : gmap string string) :
  keeps_handles (delete_event_from_queue t self event).
Proof.
  unfold delete_event_from_queue, delete_message. repeat handles_step.
Qed.

Lemma handles_purge (t : transport) (self : nat) :
  keeps_handles (purge t self).
Proof.
  unfold purge, purge_queue. repeat handles_step.
  simplify_eq. repeat handles_step.
Qed.

Lemma handles_after (c : call) (w : world) :
  registry_ok w -> handles_ok w -> handles_ok (after c w).
Proof.
  intros Hok Hw. destruct c; cbn [after].
  - by apply handles_new_SQSClient.
  - destruct (build_cases b w) as [[_ ->]|[_ ->]];
      [by apply handles_new_SQSClient | exact Hw].
  - by apply handles_enter.
  - by apply handles_exit.
  - by apply handles_send_message.
  - by apply handles_retry_loop.
  - by apply handles_delete_event.
  - by apply handles_purge.
Qed.

Lemma reachable_handles_ok (w : world) : reachable w -> handles_ok w.
Proof.
  unfold reachable. generalize (boto3_rejects w) as env. intros env Hr.
  assert (registry_ok w /\ handles_ok w) as [_ Hw]; [|done].
  induction Hr as [|w' c Hr [IHok IHw]].
  - split; [apply start_ok|]. intros i o h Hi. by cbn in Hi.
  - split; [by apply after_ok | by apply handles_after].
Qed.

(** In every world a process can be in, the region and credentials of an
    initialised client are ones [boto3.client] accepts: a reconnect, or
    [__enter__], asks for nothing it was not given when the client was
    built. *)
Lemma reachable_bound_accepted (w : world) (self : nat)
    (region key secret url : pyval) (h : handle) :
  reachable w ->
  bound w self region key secret url h ->
  accepted w region key secret.
Proof.
  intros Hw Hb.
  destruct (reachable_handles_ok w Hw self _ h Hb eq_refl)
    as (r & k & s & Hr & Hk & Hs & Hacc).
  by simplify_eq/=.
Qed.

(** ** A construction that [boto3.client] refuses *)

(** X18. When [boto3.client] refuses the region and credentials of a
    configuration the registry does not have yet, the constructor call
    raises the exception of [boto3.client], but only after [__new__] has
    registered the new object and [__init__] has assigned its four
    attributes: the object stays in [_instances] with this configuration
    and no handle. A second call with the same values finds that object,
    registers nothing, and raises again. *)
Theorem refused_construction_stays_registered (w : world)
    (region key secret url : pyval) (e : exn) :
  reachable w ->
  boto3_rejects w region key secret = Some e ->
  (forall i, i ∈ _instances w ->
     config_at w i <> Some (region, key, secret, url)) ->
  exists w1 w2,
    new_SQSClient region key secret url w = (Raise e, w1)
    /\ _instances w1 = _instances w ++ [length (heap w)]
    /\ config_at w1 (length (heap w)) = Some (region, key, secret, url)
    /\ handle_at w1 (length (heap w)) = None
    /\ trace w1 = trace w
    /\ new_SQSClient region key secret url w1 = (Raise e, w2)
    /\ _instances w2 = _instances w1.
Proof.
  intros Hw Hrej Hfresh. pose proof (reachable_ok w Hw) as Hok.
  set (n := length (heap w)).
  set (w1 := snd (built (registered w) n region key secret url)).
  assert (Hrun1 : new_SQSClient region key secret url w = (Raise e, w1)).
  { destruct (new_SQSClient_cases w region key secret url Hok)
      as [(i & Hi & Hc & _)|[_ ->]]; [by apply Hfresh in Hi|].
    unfold w1, n, built. cbn [registered boto3_rejects]. by rewrite Hrej. }
  assert (Hw1 : w1 = configured (registered w) n region key secret url).
  { unfold w1, built. cbn [registered boto3_rejects]. by rewrite Hrej. }
  destruct (built_new_ok w region key secret url Hok Hfresh) as [Hok1 _].
  fold n in Hok1. fold w1 in Hok1.
  assert (Hin1 : _instances w1 = _instances w ++ [n]) by by rewrite Hw1.
  assert (Hcfg1 : config_at w1 n = Some (region, key, secret, url)).
  { unfold w1, n. rewrite built_new_config. by rewrite decide_True. }
  assert (Henv1 : boto3_rejects w1 = boto3_rejects w) by by rewrite Hw1.
  destruct (new_SQSClient_cases w1 region key secret url Hok1)
    as [(j & Hj & Hcj & Hrun2)|[Hfresh2 _]].
  - exists w1, (snd (built w1 j region key secret url)).
    destruct (built_instances w1 j region key secret url) as (Hi2 & _ & _).
    split_and!; [done..| | | |done].
    + rewrite Hw1. unfold handle_at, configured, registered, n. cbn.
      rewrite list_lookup_alter_eq, list_lookup_middle by done. done.
    + by rewrite Hw1.
    + rewrite Hrun2. unfold built. rewrite Henv1, Hrej. done.
  - exfalso. apply (Hfresh2 n); [|done].
    rewrite Hin1. apply elem_of_app. right. by apply list_elem_of_singleton.
Qed.

Lemma refused_construction_stays_registered_witness :
  exists w1 w2,
    new_SQSClient (PyStr "eu-west-1") (PyStr "AKIAEXAMPLE") PyNone
                  (PyStr "https://sqs.example/q") init_world
    = (Raise (ClientError
         "Partial credentials found in explicit, missing: aws_secret_access_key"),
       w1)
    /\ _instances w1 = [0%nat]
    /\ handle_at w1 0 = None
    /\ new_SQSClient (PyStr "eu-west-1") (PyStr "AKIAEXAMPLE") PyNone
                     (PyStr "https://sqs.example/q") w1
       = (Raise (ClientError
            "Partial credentials found in explicit, missing: aws_secret_access_key"),
          w2)
    /\ _instances w2 = [0%nat].
Proof.
  destruct (refused_construction_stays_registered init_world
              (PyStr "eu-west-1") (PyStr "AKIAEXAMPLE") PyNone
              (PyStr "https://sqs.example/q")
              (ClientError
                 "Partial credentials found in explicit, missing: aws_secret_access_key"))
    as (w1 & w2 & H1 & H2 & _ & H3 & _ & H4 & H5).
  - apply reaches_refl.
  - reflexivity.
  - intros i Hi. by apply elem_of_nil in Hi.
  - exists w1, w2. rewrite H5.
    split_and!; [exact H1 | exact H2 | exact H3 | exact H4 | exact H2].
Defined.

(** ** A send acknowledged without a message id *)

(** X19. The lookup [response["MessageId"]] sits inside the [try] of
    [send_message]: when the transport answers without that key, the
    message has been sent, and yet the call logs a failure, whose text is
    the quoted key as [str] shows a [KeyError], and raises that
    [KeyError]. *)
Theorem send_without_message_id_raises (t : transport) (self : nat)
    (region key secret url : pyval) (h : handle) (w : world)
    (body : string) (resp : gmap string string) :
  bound w self region key secret url h ->
  on_send t = inr resp ->
  resp !! "MessageId" = None ->
  send_message t self body w
  = (Raise (KeyError "MessageId"),
     log_to w [SendMessage h url body;
               LogError "Failed to send message: 'MessageId'"]).
Proof.
  intros Hb Hs Hid. red in Hb.
  unfold send_message, try_except, bind, getattr, send_message_request, bind,
    emit, of_reply, getitem.
  rewrite Hb. cbn. rewrite Hb. cbn. rewrite Hs. cbn. rewrite Hid. cbn.
  unfold log_to. by rewrite <- (assoc_L (++)).
Qed.

Lemma send_without_message_id_raises_witness :
  send_message quiet 0 "{}" sample_world
  = (Raise (KeyError "MessageId"),
     log_to sample_world
            [SendMessage 0%nat (PyStr "https://sqs.example/q") "{}";
             LogError "Failed to send message: 'MessageId'"]).
Proof.
  apply (send_without_message_id_raises quiet 0
           (PyStr "eu-west-1") (PyStr "AKIAEXAMPLE") (PyStr "secret")
           (PyStr "https://sqs.example/q") 0%nat sample_world "{}" ∅).
  - reflexivity.
  - reflexivity.
  - reflexivity.
Defined.
